(** * Journal envelope parsing (package [envelope])

    A shallow embedding of the two variants of the package that the
    repository holds:

    - [src/envelope.go]      -> module [Envelope]
    - [src/unnamed/part_000] -> module [Part000]

    Go strings and byte slices are sequences of bytes; they are modelled
    by [string], whose characters are the 8-bit [ascii]. *)

From Stdlib Require Import String Ascii List Bool Arith NArith ZArith Lia.
From Stdlib Require Import DecimalString.
Import ListNotations.

Local Open Scope string_scope.
Local Open Scope list_scope.

(** ** The Go standard library functions the package calls *)

Module strings.

(** [s[n:]] for [n <= len(s)]. *)
Fixpoint drop (n : nat) (s : string) : string :=
  match n, s with
  | O, _ => s
  | S _, EmptyString => EmptyString
  | S n', String _ r => drop n' r
  end.

(** [s[:n]] for [n <= len(s)]. *)
Fixpoint take (n : nat) (s : string) : string :=
  match n, s with
  | O, _ => EmptyString
  | S _, EmptyString => EmptyString
  | S n', String c r => String c (take n' r)
  end.

Definition HasPrefix (s pre : string) : bool := String.prefix pre s.

Definition HasSuffix (s suf : string) : bool :=
  (String.length suf <=? String.length s)%nat
  && String.eqb (drop (String.length s - String.length suf) s) suf.

(** The text before and after the first instance of [sep], when there is
    one: [s[:i]] and [s[i+len(sep):]] for [i = strings.Index(s, sep)]. *)
Fixpoint cut (sep s : string) : option (string * string) :=
  if HasPrefix s sep then Some (EmptyString, drop (String.length sep) s)
  else
    match s with
    | EmptyString => None
    | String c r =>
        match cut sep r with
        | Some (before, after) => Some (String c before, after)
        | None => None
        end
    end.

Definition Contains (s substr : string) : bool :=
  match cut substr s with Some _ => true | None => false end.

(** The loop of [genSplit]: at most [cuts] separators are consumed and
    the rest is the last piece.  [sep] is never empty at the call sites
    of the package. *)
Fixpoint genSplit (cuts : nat) (s sep : string) : list string :=
  match cuts with
  | O => [s]
  | S cuts' =>
      match cut sep s with
      | None => [s]
      | Some (before, after) => before :: genSplit cuts' after sep
      end
  end.

(** [strings.Split(s, sep)]: every instance of a non-empty [sep] is cut;
    a string of [n] bytes holds at most [n] of them. *)
Definition Split (s sep : string) : list string :=
  genSplit (String.length s) s sep.

(** [strings.SplitN(s, sep, n)] for [n > 0]: at most [n] pieces. *)
Definition SplitN (s sep : string) (n : nat) : list string :=
  genSplit (n - 1) s sep.

Definition TrimPrefix (s pre : string) : string :=
  if HasPrefix s pre then drop (String.length pre) s else s.

Definition TrimSuffix (s suf : string) : string :=
  if HasSuffix s suf then take (String.length s - String.length suf) s else s.

(** [strings.ToLower] on the ASCII range: ['A'..'Z'] are mapped to
    ['a'..'z'].  Bytes from 0x80 on are kept: Go maps the runes they
    encode through its Unicode tables, which the package does not hold. *)
Definition lower (c : ascii) : ascii :=
  let n := N_of_ascii c in
  if ((65 <=? n) && (n <=? 90))%N then ascii_of_N (n + 32) else c.

Fixpoint ToLower (s : string) : string :=
  match s with
  | EmptyString => EmptyString
  | String c r => String (lower c) (ToLower r)
  end.

End strings.

Module strconv.

(** [strconv.Itoa]: the decimal text of an integer. *)
Definition Itoa (i : Z) : string := NilZero.string_of_int (Z.to_int i).

End strconv.

(** [len] of a slice, as the Go [int] it is. *)
Definition len {A : Type} (l : list A) : Z := Z.of_nat (List.length l).

Module bufio.

(** [bufio.MaxScanTokenSize]: the scanner's buffer never grows beyond it. *)
Definition MaxScanTokenSize : N := 65536.

(** [dropCR]: one trailing carriage return is removed. *)
Definition dropCR (line : string) : string :=
  strings.TrimSuffix line (String "013"%char EmptyString).

Definition fits (line : string) : bool :=
  (N.of_nat (String.length line) <? MaxScanTokenSize)%N.

(** The tokens [Scanner.Scan] yields with the default [ScanLines] split
    function, [cur] being the bytes of the current line read so far.
    A line ends at a newline; a last line without one is a token when
    it is not empty.  A line that fills the buffer before its newline
    is seen makes [Scan] return false ([ErrTooLong]), which ends the
    loop of the caller. *)
Fixpoint scan (cur rest : string) : list string :=
  match rest with
  | EmptyString =>
      if String.eqb cur EmptyString then []
      else if fits cur then [dropCR cur] else []
  | String c rest' =>
      if Ascii.eqb c "010"%char then
        if fits cur then dropCR cur :: scan EmptyString rest' else []
      else scan (cur ++ String c EmptyString) rest'
  end.

Definition Lines (b : string) : list string := scan EmptyString b.

End bufio.

(** ** The collaborators: [net/mail], [go.enmime], [sha256-simd], [tika] *)

(** A Go [error], by the text its [Error] method gives. *)
Definition error : Type := string.

(** What a call ends in: it returns, or the process is gone before it
    could.  [Exits] is [log.Fatalln] (the line is logged and the process
    exits with status 1), [Panics] a run-time panic such as an index out
    of range, [Overflows] a recursion deeper than the stack allowance
    given to the model. *)
Inductive outcome (A : Type) : Type :=
| Returns (a : A)
| Exits
| Panics
| Overflows.

Arguments Returns {A} a.
Arguments Exits {A}.
Arguments Panics {A}.
Arguments Overflows {A}.

Module enmime.

(** [enmime.MIMEPart]: a node of the decoded part tree, with the
    accessors the package calls and its child parts in order. *)
#[warning="-register-all"] Inductive MIMEPart : Type :=
  mkMIMEPart {
      FileName : string;
      ContentType : string;
      Content : string;
      Children : list MIMEPart
    }.

(** [enmime.DepthMatchAll]: the parts of the tree under [p], [p]
    included, that satisfy [matcher], depth first: a part comes before
    its children, the children in order. *)
Fixpoint DepthMatchAll (p : MIMEPart) (matcher : MIMEPart -> bool)
  : list MIMEPart :=
  match p with
  | mkMIMEPart _ _ _ children =>
      (if matcher p then [p] else [])
        ++ flat_map (fun c => DepthMatchAll c matcher) children
  end.

(** [enmime.MIMEBody], the fields the package reads.  [Root] is taken to
    be a part, never nil. *)
Record MIMEBody : Type :=
  mkMIMEBody {
      Text : string;
      OtherParts : list MIMEPart;
      Attachments : list MIMEPart;
      Root : MIMEPart
    }.

End enmime.

(** [net/mail] and the decoder of [go.enmime] are outside the package:
    the model takes them as given.  The reader handed to
    [mail.ReadMessage] is modelled by the bytes it delivers. *)
Class Mail : Type :=
  {
    mailMessage : Type;
    Time : Type;
    zeroTime : Time;
    ReadMessage : string -> mailMessage + error;
    HeaderDate : mailMessage -> Time + error;
    ParseMIMEBody : mailMessage -> enmime.MIMEBody + error
  }.

(** [fmt.Sprintf("%x", sha256.Sum256(content))]. *)
Class Hash : Type :=
  { Sum256Hex : string -> string }.

(** The client of [github.com/nycmonkey/tika]. *)
Class TikaLib : Type :=
  {
    Tika : Type;
    NewTika : string -> Tika + error;
    TikaParse : Tika -> string -> string -> string + error
  }.

(** ** Functions that both files define, with the same text *)

(** [splitHeader], envelope.go:160 and part_000:131. *)
Definition splitHeader (h : string) : string * string * bool :=
  match strings.SplitN h ": " 2 with
  | k :: v :: _ => (k, v, true)
  | _ => (EmptyString, EmptyString, false)
  end.

(** The inner loop of [appendUniq]: is [m] equal to an element of
    [start]? ([continue CheckExists] when it is.) *)
Fixpoint checkExists (start : list string) (m : string) : bool :=
  match start with
  | [] => false
  | s :: start' => if String.eqb m s then true else checkExists start' m
  end.

(** [appendUniq], envelope.go:168 and part_000:139. *)
Fixpoint appendUniq (start more : list string) : list string :=
  match more with
  | [] => start
  | m :: more' =>
      let m := strings.ToLower m in
      if checkExists start m then appendUniq start more'
      else appendUniq (start ++ [m]) more'
  end.

(** [x, err := e; if err != nil { return }] in a function whose results
    are [(m, err)] with [m] still nil. *)
Notation "'let?' x ':=' e 'in' k" :=
  (match e with
   | inl x => k
   | inr err => Returns (None, Some err)
   end)
    (at level 10, x name, e at level 100, k at level 200, only parsing).

(** ** src/envelope.go *)

Module Envelope.
Section WithCollaborators.
Context `{Mail} `{Hash}.

Record Metadata : Type :=
  mkMetadata {
      Sender : string;
      OnBehalfOf : string;
      Subject : string;
      MessageID : string;
      To : list string;
      CC : list string;
      BCC : list string;
      Timestamp : Time
    }.

Record Part : Type :=
  mkPart {
      FileName : string;
      ContentType : string;
      PartSHA256 : string;
      Content : string
    }.

Record Message : Type :=
  mkMessage {
      Meta : Metadata;
      SHA256 : string;
      Body : string;
      Parts : list Part
    }.

(** [&Metadata{}] *)
Definition zeroMetadata : Metadata :=
  mkMetadata EmptyString EmptyString EmptyString EmptyString [] [] [] zeroTime.

Definition setSender (m : Metadata) (v : string) : Metadata :=
  mkMetadata v (OnBehalfOf m) (Subject m) (MessageID m) (To m) (CC m) (BCC m) (Timestamp m).
Definition setOnBehalfOf (m : Metadata) (v : string) : Metadata :=
  mkMetadata (Sender m) v (Subject m) (MessageID m) (To m) (CC m) (BCC m) (Timestamp m).
Definition setSubject (m : Metadata) (v : string) : Metadata :=
  mkMetadata (Sender m) (OnBehalfOf m) v (MessageID m) (To m) (CC m) (BCC m) (Timestamp m).
Definition setMessageID (m : Metadata) (v : string) : Metadata :=
  mkMetadata (Sender m) (OnBehalfOf m) (Subject m) v (To m) (CC m) (BCC m) (Timestamp m).
Definition setTo (m : Metadata) (v : list string) : Metadata :=
  mkMetadata (Sender m) (OnBehalfOf m) (Subject m) (MessageID m) v (CC m) (BCC m) (Timestamp m).
Definition setCC (m : Metadata) (v : list string) : Metadata :=
  mkMetadata (Sender m) (OnBehalfOf m) (Subject m) (MessageID m) (To m) v (BCC m) (Timestamp m).
Definition setBCC (m : Metadata) (v : list string) : Metadata :=
  mkMetadata (Sender m) (OnBehalfOf m) (Subject m) (MessageID m) (To m) (CC m) v (Timestamp m).
Definition setTimestamp (m : Metadata) (v : Time) : Metadata :=
  mkMetadata (Sender m) (OnBehalfOf m) (Subject m) (MessageID m) (To m) (CC m) (BCC m) v.

(** The body of the scanning loop of [ParseBody], lines 121-155.  The
    line logged for an unhandled key changes no result and is left out. *)
Definition scanLine (m : Metadata) (line : string) : Metadata :=
  let '(k, v, ok) := splitHeader line in
  if negb ok then m
  else if String.eqb k "Sender" then setSender m (strings.ToLower v)
  else if String.eqb k "On-Behalf-Of" then setOnBehalfOf m v
  else if String.eqb k "Subject" then setSubject m v
  else if String.eqb k "Message-Id" then
    setMessageID m (strings.TrimSuffix (strings.TrimPrefix v "<") ">")
  else if String.eqb k "Recipient" || String.eqb k "To" then
    if strings.Contains v ", Forwarded: " then
      setTo m (appendUniq (To m) (strings.Split v ", Forwarded: "))
    else
      setTo m (appendUniq (To m) (strings.Split v ", Expanded: "))
  else if String.eqb k "Cc" then
    if strings.Contains v ", Forwarded: " then
      setCC m (appendUniq (CC m) (strings.Split v ", Forwarded: "))
    else
      setCC m (appendUniq (CC m) (strings.Split v ", Expanded: "))
  else if String.eqb k "Bcc" then
    if strings.Contains v ", Forwarded: " then
      setCC m (appendUniq (CC m) (strings.Split v ", Forwarded: "))
    else
      setBCC m (appendUniq (BCC m) (strings.Split v ", Expanded: "))
  else m.

(** [ParseBody], line 117.  Its error result is never set. *)
Definition ParseBody (b : string) : Metadata * option error :=
  (fold_left scanLine (bufio.Lines b) zeroMetadata, None).

(** The channel [extractParts] sends on, by the parts sent so far. *)
Definition chan : Type := list enmime.MIMEPart.

(** How a run of [extractParts] ends. *)
Inductive status : Type :=
| Completed
| Exited          (* log.Fatalln, line 100 *)
| StackExhausted.

(** The loop of [extractParts], lines 95-113, over the parts still to
    visit; [self] is the recursive call of line 107.  The line logged
    when the decoder fails changes no result and is left out. *)
Fixpoint rangeParts (self : enmime.MIMEPart -> chan -> chan * status)
  (parts : list enmime.MIMEPart) (ch : chan) : chan * status :=
  match parts with
  | [] => (ch, Completed)
  | p :: parts' =>
      if String.eqb (enmime.ContentType p) "message/rfc822" then
        match ReadMessage (enmime.Content p) with
        | inr _ => (ch, Exited)
        | inl m =>
            match ParseMIMEBody m with
            | inr _ => rangeParts self parts' ch
            | inl p2 =>
                match self (enmime.Root p2) ch with
                | (ch', Completed) => rangeParts self parts' ch'
                | stopped => stopped
                end
            end
        end
      else if String.eqb (enmime.ContentType p) "multipart/mixed" then
        rangeParts self parts' ch
      else rangeParts self parts' (ch ++ [p])
  end.

(** [extractParts], line 94.  [stack] bounds the depth of the recursion. *)
Fixpoint extractParts (stack : nat) (part : enmime.MIMEPart) (ch : chan)
  : chan * status :=
  match stack with
  | O => (ch, StackExhausted)
  | S stack' =>
      rangeParts (extractParts stack')
        (enmime.DepthMatchAll part (fun _ => true)) ch
  end.

(** What the collector goroutine of lines 84-88 appends for a part it
    receives. *)
Definition collect (p : enmime.MIMEPart) : Part :=
  mkPart (enmime.FileName p) (enmime.ContentType p)
    (Sum256Hex (enmime.Content p)) (enmime.Content p).

(** [Parse], line 41.  [Parts] holds what the collector has appended
    once it has drained the channel. *)
Definition Parse (stack : nat) (input : string)
  : outcome (option Message * option error) :=
  let? env := ReadMessage input in
  let? received := HeaderDate env in
  let? b := ParseMIMEBody env in
  let (md, err) := ParseBody (enmime.Text b) in
  match err with
  | Some err => Returns (None, Some err)
  | None =>
      if negb (len (enmime.OtherParts b) =? 1)%Z then
        Returns (None,
            Some (String.append
                    "Expected 1 MIME message in the envolope, but got "
                    (strconv.Itoa (len (enmime.OtherParts b)))))
      else
        match nth_error (enmime.OtherParts b) 0 with
        | None => Panics
        | Some wrapped =>
            let md := setTimestamp md received in
            let h := Sum256Hex (enmime.Content wrapped) in
            match extractParts stack wrapped [] with
            | (ch, Completed) =>
                Returns (Some (mkMessage md h EmptyString (map collect ch)), None)
            | (_, Exited) => Exits
            | (_, StackExhausted) => Overflows
            end
        end
  end.

End WithCollaborators.
End Envelope.

(** ** src/unnamed/part_000 *)

Module Part000.
Section WithCollaborators.
Context `{Mail} `{TikaLib}.

Record Metadata : Type :=
  mkMetadata {
      Sender : string;
      OnBehalfOf : string;
      Subject : string;
      MessageID : string;
      To : list string;
      CC : list string;
      BCC : list string;
      JournalTimestamp : Time
    }.

Record Message : Type :=
  mkMessage {
      Meta : Metadata;
      BodyText : string
    }.

(** [&Metadata{}] *)
Definition zeroMetadata : Metadata :=
  mkMetadata EmptyString EmptyString EmptyString EmptyString [] [] [] zeroTime.

Definition setSender (m : Metadata) (v : string) : Metadata :=
  mkMetadata v (OnBehalfOf m) (Subject m) (MessageID m) (To m) (CC m) (BCC m) (JournalTimestamp m).
Definition setOnBehalfOf (m : Metadata) (v : string) : Metadata :=
  mkMetadata (Sender m) v (Subject m) (MessageID m) (To m) (CC m) (BCC m) (JournalTimestamp m).
Definition setSubject (m : Metadata) (v : string) : Metadata :=
  mkMetadata (Sender m) (OnBehalfOf m) v (MessageID m) (To m) (CC m) (BCC m) (JournalTimestamp m).
Definition setMessageID (m : Metadata) (v : string) : Metadata :=
  mkMetadata (Sender m) (OnBehalfOf m) (Subject m) v (To m) (CC m) (BCC m) (JournalTimestamp m).
Definition setTo (m : Metadata) (v : list string) : Metadata :=
  mkMetadata (Sender m) (OnBehalfOf m) (Subject m) (MessageID m) v (CC m) (BCC m) (JournalTimestamp m).
Definition setCC (m : Metadata) (v : list string) : Metadata :=
  mkMetadata (Sender m) (OnBehalfOf m) (Subject m) (MessageID m) (To m) v (BCC m) (JournalTimestamp m).
Definition setBCC (m : Metadata) (v : list string) : Metadata :=
  mkMetadata (Sender m) (OnBehalfOf m) (Subject m) (MessageID m) (To m) (CC m) v (JournalTimestamp m).
Definition setJournalTimestamp (m : Metadata) (v : Time) : Metadata :=
  mkMetadata (Sender m) (OnBehalfOf m) (Subject m) (MessageID m) (To m) (CC m) (BCC m) v.

(** The body of the scanning loop of [ParseBody], lines 105-126.  The
    line logged for an unhandled key changes no result and is left out. *)
Definition scanLine (m : Metadata) (line : string) : Metadata :=
  let '(k, v, ok) := splitHeader line in
  if negb ok then m
  else if String.eqb k "Sender" then setSender m (strings.ToLower v)
  else if String.eqb k "On-Behalf-Of" then setOnBehalfOf m v
  else if String.eqb k "Subject" then setSubject m v
  else if String.eqb k "Message-Id" then
    setMessageID m (strings.TrimSuffix (strings.TrimPrefix v "<") ">")
  else if String.eqb k "Recipient" || String.eqb k "To" then
    setTo m (appendUniq (To m) (strings.Split v " Expanded: "))
  else if String.eqb k "Cc" then
    setCC m (appendUniq (CC m) (strings.Split v " Expanded: "))
  else if String.eqb k "Bcc" then
    setBCC m (appendUniq (BCC m) (strings.Split v " Expanded: "))
  else m.

(** [ParseBody], line 101.  Its error result is never set. *)
Definition ParseBody (b : string) : Metadata * option error :=
  (fold_left scanLine (bufio.Lines b) zeroMetadata, None).

(** [Parse], line 32.  The error built at line 78 is bound to [unreturned]:
    no return follows it, and line 82 assigns [err] anew. *)
Definition Parse (input : string) : outcome (option Message * option error) :=
  let? env := ReadMessage input in
  let? received := HeaderDate env in
  let? b := ParseMIMEBody env in
  let (md, err) := ParseBody (enmime.Text b) in
  match err with
  | Some err => Returns (None, Some err)
  | None =>
      if negb (len (enmime.OtherParts b) =? 1)%Z then
        Returns (None,
            Some (String.append
                    "Expected 1 MIME message in the envolope, but got "
                    (strconv.Itoa (len (enmime.OtherParts b)))))
      else
        match nth_error (enmime.OtherParts b) 0 with
        | None => Panics
        | Some wrapped =>
            match ReadMessage (enmime.Content wrapped) with
            | inr _ => Exits
            | inl m2 =>
                let? b2 := ParseMIMEBody m2 in
                let unreturned : option error :=
                  if (len (enmime.Attachments b2) <? 1)%Z then
                    Some (String.append
                            "Expected at least one attachment, but got "
                            (strconv.Itoa (len (enmime.Attachments b))))
                  else None in
                let? t := NewTika "http://localhost:9998/tika" in
                match nth_error (enmime.Attachments b2) 0 with
                | None => Panics
                | Some attachment =>
                    let? data := TikaParse t (enmime.Content attachment)
                                   (enmime.ContentType attachment) in
                    Returns (Some (mkMessage (setJournalTimestamp md received) data),
                        None)
                end
            end
        end
  end.

End WithCollaborators.
End Part000.

(** ** What the design document says, in its own terms *)

Module Design.

(** Two recipients are the same when they are equal after lower-casing. *)
Definition sameRecipient (a b : string) : Prop :=
  strings.ToLower a = strings.ToLower b.


Definition lowerCased (s : string) : Prop := strings.ToLower s = s.

(** A normalized sequence: entries lower-cased and pairwise distinct. *)
Definition normalized (l : list string) : Prop :=
  Forall lowerCased l /\ NoDup l.

(** The distinct entries of a sequence, each where it is seen first. *)
Fixpoint firstSeen (l : list string) : list string :=
  match l with
  | [] => []
  | x :: r => x :: filter (fun y => negb (String.eqb y x)) (firstSeen r)
  end.

(** The separator of the dialect a recipient value is written in:
    "Forwarded" when its marker is there, "Expanded" otherwise. *)
Definition dialectSeparator (v : string) : string :=
  if strings.Contains v ", Forwarded: " then ", Forwarded: "
  else ", Expanded: ".

Definition isWrapper (p : enmime.MIMEPart) : bool :=
  String.eqb (enmime.ContentType p) "message/rfc822".

Definition isContainer (p : enmime.MIMEPart) : bool :=
  String.eqb (enmime.ContentType p) "multipart/mixed".

(** A part of one of the two types that are never sent. *)
Definition neverSent (p : enmime.MIMEPart) : Prop :=
  enmime.ContentType p = "message/rfc822"
  \/ enmime.ContentType p = "multipart/mixed".

(** A leaf: neither the grouping container nor a re-wrapped message. *)
Definition isLeaf (p : enmime.MIMEPart) : bool :=
  negb (isWrapper p) && negb (isContainer p).

Section Nesting.
Context `{Mail}.



(** The decoded root of the message a part wraps, when its content reads
    as a message and decodes. *)
Definition reopen (p : enmime.MIMEPart) : option enmime.MIMEPart :=
  match ReadMessage (enmime.Content p) with
  | inl m =>
      match ParseMIMEBody m with
      | inl body => Some (enmime.Root body)
      | inr _ => None
      end
  | inr _ => None
  end.

Definition readable (p : enmime.MIMEPart) : bool :=
  match ReadMessage (enmime.Content p) with
  | inl _ => true
  | inr _ => false
  end.

(** A node the traversal gets past: any but a re-wrapped message that
    does not read as a message. *)
Definition passable (p : enmime.MIMEPart) : bool :=
  negb (isWrapper p) || readable p.

(** No re-wrapped message among [nodes] fails to read as a message. *)
Definition allReadable (nodes : list enmime.MIMEPart) : bool :=
  forallb passable nodes.

(** The nodes before the first re-wrapped message that does not read. *)
Fixpoint readablePrefix (nodes : list enmime.MIMEPart) : list enmime.MIMEPart :=
  match nodes with
  | [] => []
  | p :: nodes' => if passable p then p :: readablePrefix nodes' else []
  end.

(** Every node of [parts] followed by the nodes nested under it, a
    re-wrapped message being followed by the nodes of the tree it decodes
    to, which [nested] gives. *)
Fixpoint preorderAll (nested : enmime.MIMEPart -> option (list enmime.MIMEPart))
  (parts : list enmime.MIMEPart) : option (list enmime.MIMEPart) :=
  match parts with
  | [] => Some []
  | p :: parts' =>
      let under :=
        if isWrapper p then
          match reopen p with
          | Some root => nested root
          | None => Some []
          end
        else Some [] in
      match under, preorderAll nested parts' with
      | Some inner, Some rest => Some (p :: inner ++ rest)
      | _, _ => None
      end
  end.

(** The nodes of a part tree across all nesting levels, in pre-order;
    [None] when messages are wrapped [levels] deep or deeper. *)
Fixpoint preorder (levels : nat) (root : enmime.MIMEPart)
  : option (list enmime.MIMEPart) :=
  match levels with
  | O => None
  | S levels' =>
      preorderAll (preorder levels')
        (enmime.DepthMatchAll root (fun _ => true))
  end.

End Nesting.
End Design.

(** ** A mail system small enough to run *)

Module Fixture.

Definition nl : string := String "010"%char EmptyString.

Definition leaf (type content : string) : enmime.MIMEPart :=
  enmime.mkMIMEPart EmptyString type content [].

Definition wrapper (content : string) : enmime.MIMEPart :=
  leaf "message/rfc822" content.

Definition mixed (children : list enmime.MIMEPart) : enmime.MIMEPart :=
  enmime.mkMIMEPart EmptyString "multipart/mixed" EmptyString children.

Definition journalText : string :=
  "Sender: A@x.com" ++ nl ++ "To: a@x.com, Expanded: b@x.com" ++ nl.

Definition journal (others : list enmime.MIMEPart) : enmime.MIMEBody :=
  enmime.mkMIMEBody journalText others [] (mixed others).

Definition message (root : enmime.MIMEPart) (attachments : list enmime.MIMEPart)
  : enmime.MIMEBody :=
  enmime.mkMIMEBody EmptyString [] attachments root.

(** The decoder, message by message.  A text that starts with ['~'] reads
    as a message and does not decode. *)
Definition decode (m : string) : enmime.MIMEBody + error :=
  if strings.HasPrefix m "~" then inr "unsupported transfer encoding"
  else if String.eqb m "journal-none" then inl (journal [])
  else if String.eqb m "journal-two" then
    inl (journal [wrapper "plain"; wrapper "plain"])
  else if String.eqb m "journal-forward" then inl (journal [wrapper "forward"])
  else if String.eqb m "journal-truncated" then inl (journal [wrapper "cut"])
  else if String.eqb m "journal-plain" then inl (journal [wrapper "plain"])
  else if String.eqb m "forward" then
    inl (message (mixed [leaf "text/plain" "see below";
                         wrapper "original";
                         wrapper "~scrambled";
                         leaf "application/pdf" "%PDF"]) [])
  else if String.eqb m "original" then
    inl (message (mixed [leaf "text/plain" "hello"; leaf "text/html" "<p>"]) [])
  else if String.eqb m "cut" then
    inl (message (mixed [leaf "text/plain" "kept"; wrapper "!"; leaf "text/plain" "lost"]) [])
  else inl (message (leaf "text/plain" m) []).

(** A text that starts with ['!'] does not read as a message. *)
#[export] Instance mail : Mail :=
  {|
    mailMessage := string;
    Time := nat;
    zeroTime := 0;
    ReadMessage raw :=
      if strings.HasPrefix raw "!" then inr "malformed MIME header line"
      else inl raw;
    HeaderDate m :=
      if strings.HasPrefix m "journal" then inl 1
      else inr "mail: header not in message";
    ParseMIMEBody := decode
  |}.

#[export] Instance hash : Hash :=
  {| Sum256Hex content := String.append "sha256:" content |}.

#[export] Instance tika : TikaLib :=
  {|
    Tika := string;
    NewTika url := inl url;
    TikaParse t content type := inl content
  |}.

End Fixture.

(** ** Notions for the properties of the scan *)

Module Notions.

Definition LF : string := String "010"%char EmptyString.
Definition CR : string := String "013"%char EmptyString.
Definition CRLF : string := String "013"%char (String "010"%char EmptyString).

(** The keys the [switch] of [ParseBody] has a case for. *)
Definition handledKeys : list string :=
  ["Sender"; "On-Behalf-Of"; "Subject"; "Message-Id";
   "Recipient"; "To"; "Cc"; "Bcc"].

(** The key of a line, empty when the line is no header line. *)
Definition headerKey (line : string) : string := fst (fst (splitHeader line)).

(** A line the scan has no case for: no header line, or an unhandled key. *)
Definition ignored (line : string) : bool :=
  let '(k, _, ok) := splitHeader line in
  negb ok || negb (existsb (String.eqb k) handledKeys).

Fixpoint noNewline (s : string) : bool :=
  match s with
  | EmptyString => true
  | String c r => negb (Ascii.eqb c "010"%char) && noNewline r
  end.

(** A line as a text editor shows it: no newline inside, no carriage
    return at its end, short enough for the scanner with its line end. *)
Definition plainLine (l : string) : bool :=
  noNewline l && negb (strings.HasSuffix l CR) && bufio.fits (String.append l CR).

(** The text of [lines], each followed by the line end [eol]. *)
Fixpoint joinLines (eol : string) (lines : list string) : string :=
  match lines with
  | [] => EmptyString
  | l :: lines' => String.append l (String.append eol (joinLines eol lines'))
  end.

(** [n] times the byte [c]. *)
Fixpoint fill (n : nat) (c : ascii) : string :=
  match n with
  | O => EmptyString
  | S n' => String c (fill n' c)
  end.

Section Records.
Import Design.
Context `{Mail}.


(** The recipient sequences of [m'] start with those of [m]. *)
Definition Envelope_extends (m m' : Envelope.Metadata) : Prop :=
  (exists added, Envelope.To m' = Envelope.To m ++ added)
  /\ (exists added, Envelope.CC m' = Envelope.CC m ++ added)
  /\ (exists added, Envelope.BCC m' = Envelope.BCC m ++ added).

End Records.
End Notions.

(** ** A journal whose wrapped message has an attachment *)

Module RtfFixture.

Definition memo : enmime.MIMEPart :=
  enmime.mkMIMEPart "memo.rtf" "application/rtf" "{rtf1 memo}" [].

(** The journal wraps one message; any other text decodes to a message
    with the attachment [memo]. *)
#[export] Instance mail : Mail :=
  {|
    mailMessage := string;
    Time := nat;
    zeroTime := 0;
    ReadMessage raw := inl raw;
    HeaderDate m := inl 7;
    ParseMIMEBody m :=
      if String.eqb m "journal" then
        inl (enmime.mkMIMEBody Fixture.journalText [Fixture.wrapper "wrapped"] []
               (Fixture.wrapper "wrapped"))
      else
        inl (enmime.mkMIMEBody EmptyString [] [memo] memo)
  |}.

End RtfFixture.

(** * Properties *)

(** ** The recipient normalizer, [appendUniq] *)

Section Normalizer.
Import Design.



Lemma checkExists_In (start : list string) (m : string) :
  checkExists start m = true <-> In m start.
Proof.
  induction start as [|s start IH]; simpl.
  - split; [discriminate | tauto].
  - destruct (String.eqb_spec m s) as [->|Hne].
    + tauto.
    + rewrite IH. split; [tauto|]. intros [E|I]; [congruence | exact I].
Qed.

Lemma checkExists_notIn (start : list string) (m : string) :
  checkExists start m = false <-> ~ In m start.
Proof.
  rewrite <- checkExists_In. destruct (checkExists start m); split; congruence.
Qed.


Lemma filter_filter {A} (f g : A -> bool) (l : list A) :
  filter f (filter g l) = filter (fun x => g x && f x) l.
Proof.
  induction l as [|x l IH]; simpl; [reflexivity|].
  destruct (g x); simpl; [destruct (f x)|]; now rewrite IH.
Qed.

(** What [appendUniq] adds: the first occurrences of the lower-cased
    candidates that [start] does not hold. *)
Lemma appendUniq_firstSeen (start more : list string) :
  appendUniq start more =
    start ++ filter (fun x => negb (checkExists start x))
               (firstSeen (map strings.ToLower more)).
Proof.
  revert start. induction more as [|m more IH]; intro start.
  - simpl. now rewrite app_nil_r.
  - cbn [appendUniq map firstSeen filter].
    destruct (checkExists start (strings.ToLower m)) eqn:E; cbn [negb].
    + rewrite IH. f_equal. rewrite filter_filter. apply filter_ext_in.
      intros x _. destruct (String.eqb_spec x (strings.ToLower m)) as [->|]; simpl.
      * now rewrite E.
      * reflexivity.
    + rewrite IH, <- app_assoc. simpl. do 2 f_equal.
      rewrite filter_filter. apply filter_ext_in. intros x _.
      destruct (checkExists (start ++ [strings.ToLower m]) x) eqn:E1.
      * apply checkExists_In, in_app_or in E1. destruct E1 as [I|[<-|[]]].
        -- apply checkExists_In in I. rewrite I. now rewrite andb_false_r.
        -- now rewrite String.eqb_refl.
      * apply checkExists_notIn in E1.
        assert (N1 : ~ In x start) by (intro; apply E1, in_or_app; now left).
        assert (N2 : x <> strings.ToLower m)
          by (intros ->; apply E1, in_or_app; right; now left).
        apply checkExists_notIn in N1. rewrite N1.
        apply String.eqb_neq in N2. now rewrite N2.
Qed.

Lemma firstSeen_In (l : list string) (x : string) : In x (firstSeen l) <-> In x l.
Proof.
  induction l as [|y l IH]; simpl; [tauto|].
  rewrite filter_In, IH. destruct (String.eqb_spec x y) as [->|Hne]; simpl.
  - split; [intros [E|[_ D]]; [now left | discriminate] | now left].
  - split; [intros [E|[I _]]; tauto | intros [E|I]; [now left | now right]].
Qed.





End Normalizer.

Section NormalizerFrame.
Import Design.

(** C10.  The result of [appendUniq] starts with the elements of [start],
    as they were and in their order; what follows them are lower-cased
    candidates. *)
Theorem appendUniq_keeps_start (start more : list string) :
  exists added,
    appendUniq start more = start ++ added
    /\ firstn (List.length start) (appendUniq start more) = start
    /\ Forall (fun a => exists m, In m more /\ a = strings.ToLower m) added.
Proof.
  exists (filter (fun x => negb (checkExists start x))
            (firstSeen (map strings.ToLower more))).
  rewrite appendUniq_firstSeen. split; [reflexivity|]. split.
  - rewrite firstn_app, Nat.sub_diag, firstn_all. simpl. apply app_nil_r.
  - apply Forall_forall. intros a I.
    apply filter_In in I. destruct I as [I _].
    apply firstSeen_In, in_map_iff in I. destruct I as [m [E I]].
    exists m. now split.
Qed.

Lemma appendUniq_absorbs (start more : list string) :
  Forall lowerCased more -> incl more start -> appendUniq start more = start.
Proof.
  induction more as [|m more IH]; intros L I; [reflexivity|].
  inversion L as [|? ? Lm L']; subst. simpl. rewrite Lm.
  assert (E : checkExists start m = true)
    by (apply checkExists_In, I; now left).
  rewrite E. apply IH; [exact L'|]. intros x Ix. apply I. now right.
Qed.

(** C9.  A normalized sequence taken as its own candidate list comes back
    unchanged. *)
Theorem appendUniq_idempotent (s : list string) :
  Forall lowerCased s -> NoDup s -> appendUniq s s = s.
Proof.
  intros L _. apply appendUniq_absorbs; [exact L | apply incl_refl].
Qed.

Lemma appendUniq_idempotent_witness :
  appendUniq ["a@x.com"; "b@x.com"] ["a@x.com"; "b@x.com"] = ["a@x.com"; "b@x.com"].
Proof.
  apply appendUniq_idempotent.
  - repeat constructor.
  - repeat constructor; simpl; intuition discriminate.
Defined.



Lemma normalized_nil : normalized [].
Proof. split; constructor. Qed.

End NormalizerFrame.

(** ** The metadata extractor of src/envelope.go *)

Section EnvelopeMetadata.
Import Design.
Context `{Mail}.





End EnvelopeMetadata.

Section RecipientHeaders.
Import Design.
Context `{Mail}.

Lemma splitHeader_Recipient (v : string) :
  splitHeader ("Recipient: " ++ v) = ("Recipient", v, true).
Proof. destruct v; reflexivity. Qed.

Lemma splitHeader_To (v : string) : splitHeader ("To: " ++ v) = ("To", v, true).
Proof. destruct v; reflexivity. Qed.

Lemma splitHeader_Cc (v : string) : splitHeader ("Cc: " ++ v) = ("Cc", v, true).
Proof. destruct v; reflexivity. Qed.

Lemma splitHeader_Bcc (v : string) : splitHeader ("Bcc: " ++ v) = ("Bcc", v, true).
Proof. destruct v; reflexivity. Qed.

(** What a [Bcc] line does in src/envelope.go, lines 146-151. *)
Lemma Envelope_scanLine_Bcc (m : Envelope.Metadata) (v : string) :
  Envelope.scanLine m ("Bcc: " ++ v) =
    if strings.Contains v ", Forwarded: " then
      Envelope.setCC m
        (appendUniq (Envelope.CC m) (strings.Split v ", Forwarded: "))
    else
      Envelope.setBCC m
        (appendUniq (Envelope.BCC m) (strings.Split v ", Expanded: ")).
Proof. unfold Envelope.scanLine. rewrite splitHeader_Bcc. reflexivity. Qed.

(** What a [Bcc] line does in src/unnamed/part_000, lines 122-123. *)
Lemma Part000_scanLine_Bcc (m : Part000.Metadata) (v : string) :
  Part000.scanLine m ("Bcc: " ++ v) =
    Part000.setBCC m
      (appendUniq (Part000.BCC m) (strings.Split v " Expanded: ")).
Proof. unfold Part000.scanLine. rewrite splitHeader_Bcc. reflexivity. Qed.

(** C1.  In src/envelope.go a [Bcc] line written in the "Forwarded"
    dialect lands in [CC]: the body below leaves [BCC] empty and puts
    both of its addresses into [CC]. *)
Theorem ParseBody_Bcc_forwarded_lands_in_CC :
  let m := fst (Envelope.ParseBody
                  ("Bcc: a@x.com, Forwarded: b@x.com" ++ Fixture.nl)) in
  Envelope.CC m = ["a@x.com"; "b@x.com"] /\ Envelope.BCC m = [].
Proof. split; reflexivity. Qed.

(** C4, as the two files have it.  In src/envelope.go the value of a
    [Recipient], [To], [Cc] or [Bcc] line is split on the separator of the
    dialect it is written in, "Forwarded" first, and the pieces are
    normalized into a recipient sequence; the body of the scenario gives
    the sender and the two recipients.  In src/unnamed/part_000 every
    recipient value is split on [" Expanded: "]. *)
Theorem recipients_split_by_dialect :
  (forall (m : Envelope.Metadata) (v : string),
      let pieces := strings.Split v (dialectSeparator v) in
      Envelope.scanLine m ("Recipient: " ++ v)
        = Envelope.setTo m (appendUniq (Envelope.To m) pieces)
      /\ Envelope.scanLine m ("To: " ++ v)
        = Envelope.setTo m (appendUniq (Envelope.To m) pieces)
      /\ Envelope.scanLine m ("Cc: " ++ v)
        = Envelope.setCC m (appendUniq (Envelope.CC m) pieces)
      /\ (Envelope.scanLine m ("Bcc: " ++ v)
          = Envelope.setBCC m (appendUniq (Envelope.BCC m) pieces)
          \/ Envelope.scanLine m ("Bcc: " ++ v)
             = Envelope.setCC m (appendUniq (Envelope.CC m) pieces)))
  /\ (let m := fst (Envelope.ParseBody
                      ("Sender: a@x.com" ++ Fixture.nl
                         ++ "To: a@x.com, Expanded: b@x.com" ++ Fixture.nl)) in
      Envelope.Sender m = "a@x.com"
      /\ Envelope.To m = ["a@x.com"; "b@x.com"])
  /\ (forall (m : Part000.Metadata) (v : string),
        let pieces := strings.Split v " Expanded: " in
        Part000.scanLine m ("Recipient: " ++ v)
          = Part000.setTo m (appendUniq (Part000.To m) pieces)
        /\ Part000.scanLine m ("To: " ++ v)
          = Part000.setTo m (appendUniq (Part000.To m) pieces)
        /\ Part000.scanLine m ("Cc: " ++ v)
          = Part000.setCC m (appendUniq (Part000.CC m) pieces)
        /\ Part000.scanLine m ("Bcc: " ++ v)
          = Part000.setBCC m (appendUniq (Part000.BCC m) pieces)).
Proof.
  split; [|split].
  - intros m v pieces. subst pieces. unfold Envelope.scanLine, dialectSeparator.
    rewrite splitHeader_Recipient, splitHeader_To, splitHeader_Cc, splitHeader_Bcc.
    cbn [String.eqb Ascii.eqb Bool.eqb negb orb].
    destruct (strings.Contains v ", Forwarded: "); auto.
  - split; reflexivity.
  - intros m v pieces. subst pieces. unfold Part000.scanLine.
    rewrite splitHeader_Recipient, splitHeader_To, splitHeader_Cc, splitHeader_Bcc.
    repeat split.
Qed.

End RecipientHeaders.

(** C4, in src/unnamed/part_000: the comma before [" Expanded: "] stays
    with the first address of the scenario. *)
Lemma Part000_scenario_keeps_comma :
  Part000.To
    (fst (@Part000.ParseBody Fixture.mail
            ("Sender: a@x.com" ++ Fixture.nl
               ++ "To: a@x.com, Expanded: b@x.com" ++ Fixture.nl)))
  = ["a@x.com,"; "b@x.com"]
  /\ Part000.To
       (fst (@Part000.ParseBody Fixture.mail
               ("Sender: a@x.com" ++ Fixture.nl
                  ++ "To: a@x.com, Expanded: b@x.com" ++ Fixture.nl)))
     <> ["a@x.com"; "b@x.com"].
Proof. split; [reflexivity | discriminate]. Qed.

(** ** The part extractor of src/envelope.go *)

Section PartExtractor.
Import Design.
Context `{Mail} `{Hash}.

Lemma readablePrefix_all (a : list enmime.MIMEPart) :
  allReadable a = true -> readablePrefix a = a.
Proof.
  induction a as [|p a IH]; simpl; [reflexivity|].
  intros E. apply andb_prop in E. destruct E as [Ep Ea].
  rewrite Ep. f_equal. now apply IH.
Qed.

Lemma readablePrefix_app_all (a b : list enmime.MIMEPart) :
  allReadable a = true -> readablePrefix (a ++ b) = a ++ readablePrefix b.
Proof.
  induction a as [|p a IH]; simpl; [reflexivity|].
  intros E. apply andb_prop in E. destruct E as [Ep Ea].
  rewrite Ep. f_equal. now apply IH.
Qed.

Lemma readablePrefix_app_stop (a b : list enmime.MIMEPart) :
  allReadable a = false -> readablePrefix (a ++ b) = readablePrefix a.
Proof.
  induction a as [|p a IH]; simpl; [discriminate|].
  destruct (passable p); simpl; [|reflexivity].
  intros E. f_equal. now apply IH.
Qed.

Lemma allReadable_cons (p : enmime.MIMEPart) (l : list enmime.MIMEPart) :
  allReadable (p :: l) = passable p && allReadable l.
Proof. reflexivity. Qed.

Lemma allReadable_app (a b : list enmime.MIMEPart) :
  allReadable (a ++ b) = allReadable a && allReadable b.
Proof. apply forallb_app. Qed.

Lemma readablePrefix_cons (p : enmime.MIMEPart) (l : list enmime.MIMEPart) :
  readablePrefix (p :: l) = if passable p then p :: readablePrefix l else [].
Proof. reflexivity. Qed.

Lemma filter_cons {A} (f : A -> bool) (x : A) (l : list A) :
  filter f (x :: l) = if f x then x :: filter f l else filter f l.
Proof. reflexivity. Qed.

(** The loop against the design: it sends the leaves among the nodes it
    gets past, and exits at the first message that does not read. *)
Lemma rangeParts_preorderAll
  (self : enmime.MIMEPart -> Envelope.chan -> Envelope.chan * Envelope.status)
  (nested : enmime.MIMEPart -> option (list enmime.MIMEPart)) :
  (forall root nodes ch,
      nested root = Some nodes ->
      self root ch =
        (ch ++ filter isLeaf (readablePrefix nodes),
          if allReadable nodes then Envelope.Completed else Envelope.Exited)) ->
  forall parts nodes ch,
    preorderAll nested parts = Some nodes ->
    Envelope.rangeParts self parts ch =
      (ch ++ filter isLeaf (readablePrefix nodes),
        if allReadable nodes then Envelope.Completed else Envelope.Exited).
Proof.
  intros Hself. induction parts as [|p parts IH]; intros nodes ch Hn.
  - injection Hn as <-. simpl. now rewrite app_nil_r.
  - cbn [preorderAll] in Hn. cbn [Envelope.rangeParts].
    unfold reopen, isWrapper in Hn.
    destruct (preorderAll nested parts) as [rest|].
    2:{ destruct (String.eqb _ _); [|discriminate].
        destruct (ReadMessage _); [|discriminate].
        destruct (ParseMIMEBody _); [|discriminate].
        destruct (nested _); discriminate. }
    specialize (IH rest).
    destruct (String.eqb (enmime.ContentType p) "message/rfc822") eqn:W.
    + assert (L : isLeaf p = false)
        by (unfold isLeaf, isWrapper; now rewrite W).
      destruct (ReadMessage (enmime.Content p)) as [m|e] eqn:R.
      * assert (P : passable p = true)
          by (unfold passable, readable; rewrite R; apply orb_true_r).
        destruct (ParseMIMEBody m) as [body|e].
        -- destruct (nested (enmime.Root body)) as [inner|] eqn:N; [|discriminate].
           injection Hn as <-. rewrite (Hself _ _ ch N).
           rewrite readablePrefix_cons, allReadable_cons, allReadable_app, P.
           rewrite filter_cons, L. cbn [andb].
           destruct (allReadable inner) eqn:A; cbn [andb].
           ++ rewrite (IH _ eq_refl), readablePrefix_app_all by exact A.
              rewrite (readablePrefix_all inner A), filter_app, <- app_assoc.
              reflexivity.
           ++ now rewrite readablePrefix_app_stop by exact A.
        -- injection Hn as <-. rewrite (IH _ eq_refl).
           rewrite readablePrefix_cons, allReadable_cons, P, filter_cons, L.
           reflexivity.
      * injection Hn as <-.
        assert (P : passable p = false)
          by (unfold passable, readable, isWrapper; now rewrite R, W).
        rewrite readablePrefix_cons, allReadable_cons, P. simpl.
        now rewrite app_nil_r.
    + assert (P : passable p = true)
        by (unfold passable, isWrapper; now rewrite W).
      injection Hn as <-.
      rewrite readablePrefix_cons, allReadable_cons, P, filter_cons.
      cbn [andb app]. unfold isLeaf at 1, isWrapper, isContainer. rewrite W.
      destruct (String.eqb (enmime.ContentType p) "multipart/mixed");
        cbn [negb andb]; rewrite (IH _ eq_refl).
      * reflexivity.
      * now rewrite <- app_assoc.
Qed.

Lemma extractParts_preorder (levels : nat) :
  forall part nodes ch,
    preorder levels part = Some nodes ->
    Envelope.extractParts levels part ch =
      (ch ++ filter isLeaf (readablePrefix nodes),
        if allReadable nodes then Envelope.Completed else Envelope.Exited).
Proof.
  induction levels as [|levels IH]; intros part nodes ch Hn; [discriminate|].
  cbn [preorder] in Hn. cbn [Envelope.extractParts].
  now apply rangeParts_preorderAll with (nested := preorder levels).
Qed.

Lemma preorderAll_mono
  (n1 n2 : enmime.MIMEPart -> option (list enmime.MIMEPart)) :
  (forall root nodes, n1 root = Some nodes -> n2 root = Some nodes) ->
  forall parts nodes,
    preorderAll n1 parts = Some nodes -> preorderAll n2 parts = Some nodes.
Proof.
  intros Hn. induction parts as [|p parts IH]; intros nodes E; [exact E|].
  cbn [preorderAll] in *.
  destruct (preorderAll n1 parts) as [rest|].
  2:{ destruct (isWrapper p); [|discriminate].
      destruct (reopen p); [|discriminate].
      destruct (n1 _); discriminate. }
  rewrite (IH rest eq_refl).
  destruct (isWrapper p); [|exact E].
  destruct (reopen p) as [root|]; [|exact E].
  destruct (n1 root) as [inner|] eqn:N; [|discriminate].
  now rewrite (Hn _ _ N).
Qed.

Lemma preorder_S (levels : nat) :
  forall part nodes,
    preorder levels part = Some nodes -> preorder (S levels) part = Some nodes.
Proof.
  induction levels as [|levels IH]; intros part nodes E; [discriminate|].
  cbn [preorder] in *. now apply preorderAll_mono with (n1 := preorder levels).
Qed.

Lemma preorder_mono (levels stack : nat) (part : enmime.MIMEPart)
  (nodes : list enmime.MIMEPart) :
  levels <= stack ->
  preorder levels part = Some nodes -> preorder stack part = Some nodes.
Proof.
  induction 1 as [|stack _ IH]; intro E; [exact E|].
  now apply preorder_S, IH.
Qed.

Lemma rangeParts_completed
  (self : enmime.MIMEPart -> Envelope.chan -> Envelope.chan * Envelope.status)
  (nested : enmime.MIMEPart -> option (list enmime.MIMEPart)) :
  (forall root ch ch',
      self root ch = (ch', Envelope.Completed) ->
      exists nodes, nested root = Some nodes) ->
  forall parts ch ch',
    Envelope.rangeParts self parts ch = (ch', Envelope.Completed) ->
    exists nodes, preorderAll nested parts = Some nodes.
Proof.
  intros Hself. induction parts as [|p parts IH]; intros ch ch' E.
  - now exists [].
  - cbn [Envelope.rangeParts] in E. cbn [preorderAll]. unfold reopen, isWrapper.
    destruct (String.eqb (enmime.ContentType p) "message/rfc822").
    + destruct (ReadMessage (enmime.Content p)) as [m|e]; [|discriminate].
      destruct (ParseMIMEBody m) as [body|e].
      * destruct (self (enmime.Root body) ch) as [ch1 st] eqn:S1.
        destruct st; try discriminate.
        destruct (Hself _ _ _ S1) as [inner ->].
        destruct (IH _ _ E) as [rest ->]. now eexists.
      * destruct (IH _ _ E) as [rest ->]. now eexists.
    + destruct (String.eqb (enmime.ContentType p) "multipart/mixed");
        destruct (IH _ _ E) as [rest ->]; now eexists.
Qed.

Lemma extractParts_completed (stack : nat) :
  forall part ch ch',
    Envelope.extractParts stack part ch = (ch', Envelope.Completed) ->
    exists nodes, preorder stack part = Some nodes.
Proof.
  induction stack as [|stack IH]; intros part ch ch' E; [discriminate|].
  cbn [Envelope.extractParts] in E. cbn [preorder].
  now apply rangeParts_completed
    with (self := Envelope.extractParts stack) (ch := ch) (ch' := ch').
Qed.

Lemma rangeParts_sends
  (self : enmime.MIMEPart -> Envelope.chan -> Envelope.chan * Envelope.status) :
  (forall root ch ch' st,
      self root ch = (ch', st) ->
      exists sent, ch' = ch ++ sent /\ Forall (fun p => ~ neverSent p) sent) ->
  forall parts ch ch' st,
    Envelope.rangeParts self parts ch = (ch', st) ->
    exists sent, ch' = ch ++ sent /\ Forall (fun p => ~ neverSent p) sent.
Proof.
  intros Hself. induction parts as [|p parts IH]; intros ch ch' st E.
  - injection E as <- _. exists []. now rewrite app_nil_r.
  - cbn [Envelope.rangeParts] in E.
    destruct (String.eqb_spec (enmime.ContentType p) "message/rfc822") as [W|W].
    + destruct (ReadMessage (enmime.Content p)) as [m|e].
      * destruct (ParseMIMEBody m) as [body|e]; [|now apply IH in E].
        destruct (self (enmime.Root body) ch) as [ch1 st1] eqn:S1.
        destruct (Hself _ _ _ _ S1) as [sent1 [-> F1]].
        destruct st1;
          try (injection E as <- _; now exists sent1).
        apply IH in E. destruct E as [sent2 [-> F2]].
        exists (sent1 ++ sent2). rewrite app_assoc. split; [reflexivity|].
        apply Forall_app. now split.
      * injection E as <- _. exists []. now rewrite app_nil_r.
    + destruct (String.eqb_spec (enmime.ContentType p) "multipart/mixed") as [C|C];
        [now apply IH in E|].
      apply IH in E. destruct E as [sent [-> F]].
      exists (p :: sent). rewrite <- app_assoc. split; [reflexivity|].
      constructor; [|exact F]. unfold neverSent. tauto.
Qed.

Lemma extractParts_sends (stack : nat) :
  forall part ch ch' st,
    Envelope.extractParts stack part ch = (ch', st) ->
    exists sent, ch' = ch ++ sent /\ Forall (fun p => ~ neverSent p) sent.
Proof.
  induction stack as [|stack IH]; intros part ch ch' st E.
  - injection E as <- _. exists []. now rewrite app_nil_r.
  - cbn [Envelope.extractParts] in E.
    now apply rangeParts_sends with (self := Envelope.extractParts stack) in E.
Qed.

(** C5.  No part of type [message/rfc822] or [multipart/mixed] is ever
    sent; and the parts sent by a traversal that completes are the leaves
    among the nodes of the tree across all nesting levels, in pre-order:
    a tree whose re-wrapped messages all read and nest less than [stack]
    deep is traversed to completion with that result, and a completed
    traversal is one of such a tree. *)
Theorem extractParts_flattens :
  (forall levels part nodes,
      preorder levels part = Some nodes ->
      allReadable nodes = true ->
      forall stack ch,
        levels <= stack ->
        Envelope.extractParts stack part ch
          = (ch ++ filter isLeaf nodes, Envelope.Completed))
  /\ (forall stack part ch ch',
        Envelope.extractParts stack part ch = (ch', Envelope.Completed) ->
        exists nodes,
          preorder stack part = Some nodes
          /\ allReadable nodes = true
          /\ ch' = ch ++ filter isLeaf nodes)
  /\ (forall stack part ch ch' st,
        Envelope.extractParts stack part ch = (ch', st) ->
        exists sent,
          ch' = ch ++ sent
          /\ Forall (fun p => enmime.ContentType p <> "message/rfc822"
                              /\ enmime.ContentType p <> "multipart/mixed") sent).
Proof.
  split; [|split].
  - intros levels part nodes E A stack ch Hle.
    rewrite (extractParts_preorder stack part nodes ch)
      by (now apply preorder_mono with (levels := levels)).
    now rewrite A, readablePrefix_all.
  - intros stack part ch ch' E.
    destruct (extractParts_completed _ _ _ _ E) as [nodes N].
    exists nodes. rewrite (extractParts_preorder _ _ _ ch N) in E.
    destruct (allReadable nodes) eqn:A; [|discriminate].
    injection E as <-. now rewrite readablePrefix_all.
  - intros stack part ch ch' st E.
    destruct (extractParts_sends _ _ _ _ _ E) as [sent [-> F]].
    exists sent. split; [reflexivity|].
    eapply Forall_impl; [|exact F]. unfold neverSent. tauto.
Qed.

End PartExtractor.

(** The wrapped message of the fixture journal ["journal-forward"]: four
    leaves over two nesting levels, one sub-message that does not decode. *)
Lemma extractParts_flattens_witness :
  @Envelope.extractParts Fixture.mail 5 (Fixture.wrapper "forward") []
  = ([Fixture.leaf "text/plain" "see below"; Fixture.leaf "text/plain" "hello";
      Fixture.leaf "text/html" "<p>"; Fixture.leaf "application/pdf" "%PDF"],
      Envelope.Completed).
Proof.
  exact (proj1 (@extractParts_flattens Fixture.mail) 3 (Fixture.wrapper "forward")
           _ eq_refl eq_refl 5 [] ltac:(lia)).
Defined.

(** ** The orchestrator, [Parse] *)

Section Orchestrator.
Import Design.
Context `{Mail} `{Hash} `{TikaLib}.

(** C6.  When the outer message reads, is dated and decodes, and the
    number of its other parts is not one, [Parse] returns no [Message]
    and an error that ends with that number, in both files. *)
Theorem Parse_requires_one_wrapped_message
  (stack : nat) (input : string) (env : mailMessage) (received : Time)
  (b : enmime.MIMEBody) :
  ReadMessage input = inl env ->
  HeaderDate env = inl received ->
  ParseMIMEBody env = inl b ->
  List.length (enmime.OtherParts b) <> 1 ->
  Envelope.Parse stack input
    = Returns (None,
          Some (String.append "Expected 1 MIME message in the envolope, but got "
                  (strconv.Itoa (len (enmime.OtherParts b)))))
  /\ Part000.Parse input
    = Returns (None,
          Some (String.append "Expected 1 MIME message in the envolope, but got "
                  (strconv.Itoa (len (enmime.OtherParts b))))).
Proof.
  intros R D P N.
  assert (C : (len (enmime.OtherParts b) =? 1)%Z = false)
    by (apply Z.eqb_neq; unfold len; lia).
  unfold Envelope.Parse, Part000.Parse, Envelope.ParseBody, Part000.ParseBody.
  rewrite R, D, P, C. split; reflexivity.
Qed.

(** What [Parse] of src/unnamed/part_000 does with a wrapped message that
    has no attachment: the error of line 78 is not returned; [Parse]
    returns the error of [tika.NewTika] if there is one and otherwise
    indexes the empty [Attachments] at line 87. *)
Lemma Part000_Parse_without_attachment
  (input : string) (env : mailMessage) (received : Time)
  (b : enmime.MIMEBody) (wrapped : enmime.MIMEPart) (m2 : mailMessage)
  (b2 : enmime.MIMEBody) :
  ReadMessage input = inl env ->
  HeaderDate env = inl received ->
  ParseMIMEBody env = inl b ->
  enmime.OtherParts b = [wrapped] ->
  ReadMessage (enmime.Content wrapped) = inl m2 ->
  ParseMIMEBody m2 = inl b2 ->
  enmime.Attachments b2 = [] ->
  Part000.Parse input =
    match NewTika "http://localhost:9998/tika" with
    | inl _ => Panics
    | inr err => Returns (None, Some err)
    end.
Proof.
  intros R D P O R2 P2 A.
  unfold Part000.Parse, Part000.ParseBody.
  rewrite R, D, P, O. cbn [len List.length Z.of_nat Z.eqb Pos.eqb negb nth_error Pos.of_succ_nat].
  rewrite R2, P2, A. reflexivity.
Qed.


End Orchestrator.

Lemma Parse_requires_one_wrapped_message_witness :
  @Envelope.Parse Fixture.mail Fixture.hash 5 "journal-two"
    = Returns (None, Some "Expected 1 MIME message in the envolope, but got 2")
  /\ @Part000.Parse Fixture.mail Fixture.tika "journal-two"
    = Returns (None, Some "Expected 1 MIME message in the envolope, but got 2").
Proof.
  apply (@Parse_requires_one_wrapped_message Fixture.mail Fixture.hash Fixture.tika
           5 "journal-two" "journal-two" 1
           (Fixture.journal [Fixture.wrapper "plain"; Fixture.wrapper "plain"]));
    try reflexivity.
  simpl. lia.
Defined.

(** C3.  In src/unnamed/part_000 a journal whose wrapped message has no
    attachment makes [Parse] panic: the fixture journal ["journal-plain"]
    wraps a plain text message. *)
Theorem Part000_Parse_panics_without_attachment :
  @Part000.Parse Fixture.mail Fixture.tika "journal-plain" = Panics.
Proof. reflexivity. Qed.



(** * Further properties *)

(** ** More on [appendUniq] *)

Section NormalizerAlgebra.
Import Design.

(** X1.  Candidates given in two calls are treated as candidates given in
    one: [appendUniq (appendUniq s a) b] is [appendUniq s (a ++ b)]. *)
Theorem appendUniq_app (s a b : list string) :
  appendUniq s (a ++ b) = appendUniq (appendUniq s a) b.
Proof.
  revert s. induction a as [|m a IH]; intro s; [reflexivity|].
  simpl. destruct (checkExists s (strings.ToLower m)); apply IH.
Qed.

Lemma appendUniq_In_iff (s more : list string) (x : string) :
  In x (appendUniq s more) <-> In x s \/ In x (map strings.ToLower more).
Proof.
  rewrite appendUniq_firstSeen, in_app_iff, filter_In, firstSeen_In.
  destruct (checkExists s x) eqn:E.
  - apply checkExists_In in E. simpl. intuition discriminate.
  - simpl. tauto.
Qed.

(** X2.  The result of [appendUniq] holds the entries of [start] and the
    lower-cased candidates, and nothing else: no candidate is lost and
    none is made up. *)
Theorem appendUniq_members (start more : list string) (x : string) :
  In x (appendUniq start more)
  <-> In x start \/ exists m, In m more /\ x = strings.ToLower m.
Proof.
  rewrite appendUniq_In_iff, in_map_iff. split.
  - intros [I|[m [E I]]]; [now left | right; exists m; now split].
  - intros [I|[m [I E]]]; [now left | right; exists m; now split].
Qed.

Lemma appendUniq_length (start more : list string) :
  List.length start <= List.length (appendUniq start more)
  /\ List.length (appendUniq start more) <= List.length start + List.length more.
Proof.
  revert start. induction more as [|m more IH]; intro start; simpl; [lia|].
  destruct (checkExists start (strings.ToLower m)).
  - specialize (IH start). lia.
  - specialize (IH (start ++ [strings.ToLower m])).
    rewrite length_app in IH. simpl in IH. lia.
Qed.

(** X3.  [appendUniq] keeps a duplicate-free [start] duplicate-free, also
    when its entries are not lower-cased, and adds at most one entry per
    candidate. *)
Theorem appendUniq_NoDup (start more : list string) :
  NoDup start ->
  NoDup (appendUniq start more)
  /\ List.length start <= List.length (appendUniq start more)
     <= List.length start + List.length more.
Proof.
  intro D. split; [|apply appendUniq_length].
  revert start D. induction more as [|m more IH]; intros start D; [exact D|].
  simpl. destruct (checkExists start (strings.ToLower m)) eqn:E.
  - now apply IH.
  - apply IH. apply checkExists_notIn in E.
    apply NoDup_app; [exact D | repeat constructor; simpl; tauto |].
    intros a Ia [<-|[]]. now apply E.
Qed.

Lemma appendUniq_NoDup_witness :
  NoDup (appendUniq ["Bob@x.com"] ["bob@x.com"; "BOB@x.com"; "al@x.com"])
  /\ 1 <= List.length (appendUniq ["Bob@x.com"] ["bob@x.com"; "BOB@x.com"; "al@x.com"])
     <= 1 + 3.
Proof.
  apply (appendUniq_NoDup ["Bob@x.com"] ["bob@x.com"; "BOB@x.com"; "al@x.com"]).
  repeat constructor; simpl; tauto.
Defined.

Lemma appendUniq_present (start more : list string) :
  (forall m, In m more -> In (strings.ToLower m) start) ->
  appendUniq start more = start.
Proof.
  induction more as [|m more IH]; intro P; [reflexivity|].
  simpl. assert (E : checkExists start (strings.ToLower m) = true)
    by (apply checkExists_In, P; now left).
  rewrite E. apply IH. intros x I. apply P. now right.
Qed.

(** X4.  Giving the same candidates a second time changes nothing. *)
Theorem appendUniq_again (start more : list string) :
  appendUniq (appendUniq start more) more = appendUniq start more.
Proof.
  apply appendUniq_present. intros m I.
  apply appendUniq_In_iff. right. now apply in_map.
Qed.

End NormalizerAlgebra.

(** ** Byte strings *)

Section ByteStrings.

Lemma append_nil_r (s : string) : (s ++ "")%string = s.
Proof. induction s as [|c s IH]; simpl; [reflexivity | now rewrite IH]. Qed.

Lemma append_assoc (a b c : string) :
  ((a ++ b) ++ c)%string = (a ++ (b ++ c))%string.
Proof. induction a as [|x a IH]; simpl; [reflexivity | now rewrite IH]. Qed.

Lemma length_append (a b : string) :
  String.length (a ++ b) = String.length a + String.length b.
Proof. induction a as [|x a IH]; simpl; [reflexivity | now rewrite IH]. Qed.

Lemma drop_length_append (a b : string) :
  strings.drop (String.length a) (a ++ b) = b.
Proof. induction a as [|x a IH]; simpl; [reflexivity | exact IH]. Qed.

Lemma take_length_append (a b : string) :
  strings.take (String.length a) (a ++ b) = a.
Proof. induction a as [|x a IH]; simpl; [reflexivity | now rewrite IH]. Qed.

Lemma prefix_nil (s : string) : String.prefix "" s = true.
Proof. now destruct s. Qed.

Lemma prefix_append (p t : string) : String.prefix p (p ++ t) = true.
Proof.
  induction p as [|c p IH]; simpl; [apply prefix_nil|].
  destruct (ascii_dec c c); [exact IH | congruence].
Qed.

Lemma prefix_split (p s : string) :
  String.prefix p s = true -> s = (p ++ strings.drop (String.length p) s)%string.
Proof.
  revert s. induction p as [|c p IH]; intros s E; [reflexivity|].
  destruct s as [|d s]; [discriminate|]. simpl in E |- *.
  destruct (ascii_dec c d) as [->|]; [|discriminate].
  f_equal. now apply IH.
Qed.

Lemma prefix_extend (p s t : string) :
  String.prefix p s = true -> String.prefix p (s ++ t) = true.
Proof.
  intro E. rewrite (prefix_split _ _ E), append_assoc. apply prefix_append.
Qed.

Lemma cut_eq (sep s : string) :
  strings.cut sep s =
    if strings.HasPrefix s sep
    then Some (EmptyString, strings.drop (String.length sep) s)
    else
      match s with
      | EmptyString => None
      | String c r =>
          match strings.cut sep r with
          | Some (before, after) => Some (String c before, after)
          | None => None
          end
      end.
Proof. now destruct s. Qed.

(** Where [cut] cuts: at an instance of the separator with none before. *)
Lemma cut_Some (sep s a b : string) :
  sep <> EmptyString ->
  strings.cut sep s = Some (a, b) ->
  s = (a ++ sep ++ b)%string /\ strings.cut sep a = None.
Proof.
  intro Hsep.
  assert (Hnil : strings.cut sep "" = None).
  { rewrite cut_eq. unfold strings.HasPrefix.
    destruct sep; [congruence | reflexivity]. }
  revert a b. induction s as [|c r IH]; intros a b E.
  - rewrite Hnil in E. discriminate.
  - rewrite cut_eq in E. destruct (strings.HasPrefix (String c r) sep) eqn:P.
    + injection E as <- <-. split; [|exact Hnil].
      now apply prefix_split.
    + destruct (strings.cut sep r) as [[a' b']|] eqn:C; [|discriminate].
      injection E as <- <-. destruct (IH _ _ eq_refl) as [-> N].
      split; [reflexivity|]. rewrite cut_eq, N.
      destruct (strings.HasPrefix (String c a') sep) eqn:P'; [|reflexivity].
      unfold strings.HasPrefix in *.
      apply prefix_extend with (t := (sep ++ b')%string) in P'.
      simpl append in P'. congruence.
Qed.

(** The separator of header lines is found right after a key that does
    not hold it. *)
Lemma cut_header (k v : string) :
  strings.cut ": " k = None ->
  strings.cut ": " (k ++ ": " ++ v) = Some (k, v).
Proof.
  induction k as [|c k IH]; intro N.
  - destruct v; reflexivity.
  - rewrite cut_eq in N.
    destruct (strings.HasPrefix (String c k) ": ") eqn:P; [discriminate|].
    destruct (strings.cut ": " k) as [[? ?]|]; [discriminate|].
    change (String c k ++ ": " ++ v)%string with (String c (k ++ ": " ++ v)).
    assert (Q : strings.HasPrefix (String c (k ++ ": " ++ v)) ": " = false).
    { unfold strings.HasPrefix in *. cbn [String.prefix] in P |- *.
      destruct (ascii_dec ":" c); [|reflexivity].
      destruct k as [|d k]; cbn [String.prefix append] in P |- *; [reflexivity|].
      destruct (ascii_dec " " d); [|reflexivity].
      now rewrite prefix_nil in P. }
    now rewrite cut_eq, Q, (IH eq_refl).
Qed.

Lemma TrimSuffix_append (x suf : string) :
  strings.TrimSuffix (x ++ suf) suf = x.
Proof.
  unfold strings.TrimSuffix, strings.HasSuffix.
  rewrite length_append, Nat.add_sub, drop_length_append, take_length_append.
  rewrite String.eqb_refl.
  replace (String.length suf <=? String.length x + String.length suf)%nat with true
    by (symmetry; apply Nat.leb_le; lia).
  reflexivity.
Qed.

Lemma TrimPrefix_append (pre x : string) :
  strings.TrimPrefix (pre ++ x) pre = x.
Proof.
  unfold strings.TrimPrefix, strings.HasPrefix.
  now rewrite prefix_append, drop_length_append.
Qed.

End ByteStrings.

(** ** Header lines *)

Section HeaderLines.
Import Notions.
Context `{Mail}.

(** X5.  [splitHeader] accepts a line exactly when it holds [": "], and
    then cuts it at the first one: the line is the key, [": "] and the
    value, and the key holds no [": "].  Any other line gives empty
    strings and [false]. *)
Theorem splitHeader_first_separator (h : string) :
  (forall k v,
      splitHeader h = (k, v, true)
      <-> h = (k ++ ": " ++ v)%string /\ strings.Contains k ": " = false)
  /\ (splitHeader h = (EmptyString, EmptyString, false)
      <-> strings.Contains h ": " = false).
Proof.
  assert (Hsep : ": "%string <> EmptyString) by discriminate.
  unfold splitHeader, strings.SplitN, strings.Contains. cbn [Nat.sub strings.genSplit].
  split.
  - intros k v. split.
    + destruct (strings.cut ": " h) as [[a b]|] eqn:C; [|discriminate].
      intro E. injection E as <- <-.
      destruct (cut_Some _ _ _ _ Hsep C) as [-> N]. now rewrite N.
    + intros [-> N].
      destruct (strings.cut ": " k) eqn:C; [discriminate|].
      now rewrite (cut_header _ _ C).
  - destruct (strings.cut ": " h) as [[a b]|]; split; congruence.
Qed.

Lemma splitHeader_MessageId (v : string) :
  splitHeader ("Message-Id: " ++ v) = ("Message-Id", v, true).
Proof. destruct v; reflexivity. Qed.

(** X6.  A [Message-Id] line whose value is in angle brackets stores what
    is between them; one bracket is taken off at each end, not more.  Both
    files. *)
Theorem MessageId_brackets_stripped (x : string) :
  (forall m : Envelope.Metadata,
      Envelope.scanLine m ("Message-Id: <" ++ x ++ ">") = Envelope.setMessageID m x)
  /\ (forall m : Part000.Metadata,
        Part000.scanLine m ("Message-Id: <" ++ x ++ ">") = Part000.setMessageID m x).
Proof.
  assert (E : strings.TrimSuffix (strings.TrimPrefix ("<" ++ x ++ ">") "<") ">" = x)
    by now rewrite TrimPrefix_append, TrimSuffix_append.
  split; intro m.
  - unfold Envelope.scanLine.
    change ("Message-Id: <" ++ x ++ ">")%string
      with ("Message-Id: " ++ ("<" ++ x ++ ">"))%string.
    rewrite splitHeader_MessageId. cbn [String.eqb Ascii.eqb Bool.eqb negb].
    now rewrite E.
  - unfold Part000.scanLine.
    change ("Message-Id: <" ++ x ++ ">")%string
      with ("Message-Id: " ++ ("<" ++ x ++ ">"))%string.
    rewrite splitHeader_MessageId. cbn [String.eqb Ascii.eqb Bool.eqb negb].
    now rewrite E.
Qed.

Lemma Envelope_scanLine_ignored (m : Envelope.Metadata) (line : string) :
  ignored line = true -> Envelope.scanLine m line = m.
Proof.
  unfold ignored, Envelope.scanLine, handledKeys.
  destruct (splitHeader line) as [[k v] ok]. destruct ok; [|reflexivity].
  cbn [negb orb existsb].
  repeat match goal with
         | |- context [String.eqb k ?s] => destruct (String.eqb k s)
         end; cbn; congruence.
Qed.

Lemma Part000_scanLine_ignored (m : Part000.Metadata) (line : string) :
  ignored line = true -> Part000.scanLine m line = m.
Proof.
  unfold ignored, Part000.scanLine, handledKeys.
  destruct (splitHeader line) as [[k v] ok]. destruct ok; [|reflexivity].
  cbn [negb orb existsb].
  repeat match goal with
         | |- context [String.eqb k ?s] => destruct (String.eqb k s)
         end; cbn; congruence.
Qed.

(** X7.  A line that is no header line, or whose key has no case in the
    [switch], changes nothing: the scan of the lines with it is the scan
    of the lines without it.  Both files. *)
Theorem ignored_line_changes_nothing (before after : list string) (junk : string) :
  ignored junk = true ->
  (forall m : Envelope.Metadata,
      fold_left Envelope.scanLine (before ++ junk :: after) m
      = fold_left Envelope.scanLine (before ++ after) m)
  /\ (forall m : Part000.Metadata,
        fold_left Part000.scanLine (before ++ junk :: after) m
        = fold_left Part000.scanLine (before ++ after) m).
Proof.
  intro I. split; intro m; rewrite !fold_left_app; cbn [fold_left].
  - now rewrite Envelope_scanLine_ignored.
  - now rewrite Part000_scanLine_ignored.
Qed.

End HeaderLines.

Lemma ignored_line_changes_nothing_witness :
  fold_left Envelope.scanLine
    (["To: a@x.com"] ++ "X-Note: To: b@x.com" :: ["Cc: c@x.com"])
    (@Envelope.zeroMetadata Fixture.mail)
  = fold_left Envelope.scanLine (["To: a@x.com"] ++ ["Cc: c@x.com"])
      (@Envelope.zeroMetadata Fixture.mail).
Proof.
  apply (proj1 (@ignored_line_changes_nothing Fixture.mail
                  ["To: a@x.com"] ["Cc: c@x.com"] "X-Note: To: b@x.com" eq_refl)).
Defined.

(** ** What the scan keeps *)

Section ScanInvariants.
Import Design Notions.
Context `{Mail}.







Lemma appendUniq_extends (start more : list string) :
  exists added, appendUniq start more = start ++ added.
Proof. rewrite appendUniq_firstSeen. now eexists. Qed.

Lemma Envelope_extends_refl (m : Envelope.Metadata) : Envelope_extends m m.
Proof. repeat split; exists []; now rewrite app_nil_r. Qed.

Lemma Envelope_extends_trans (a b c : Envelope.Metadata) :
  Envelope_extends a b -> Envelope_extends b c -> Envelope_extends a c.
Proof.
  intros ([t1 T1] & [c1 C1] & [b1 B1]) ([t2 T2] & [c2 C2] & [b2 B2]).
  repeat split.
  - exists (t1 ++ t2). now rewrite T2, T1, app_assoc.
  - exists (c1 ++ c2). now rewrite C2, C1, app_assoc.
  - exists (b1 ++ b2). now rewrite B2, B1, app_assoc.
Qed.

Lemma Envelope_scanLine_extends (m : Envelope.Metadata) (line : string) :
  Envelope_extends m (Envelope.scanLine m line).
Proof.
  unfold Envelope.scanLine. destruct (splitHeader line) as [[k v] ok].
  repeat match goal with
         | |- context [if ?c then _ else _] => destruct c
         end;
    try apply Envelope_extends_refl;
    (split; [|split]); simpl;
    try apply appendUniq_extends; exists []; now rewrite app_nil_r.
Qed.

(** X10.  The scan of src/envelope.go never takes a recipient back: after
    any further lines, [To], [CC] and [BCC] start with the entries they
    had, in the order they had. *)
Theorem Envelope_scan_only_appends (lines : list string) (m : Envelope.Metadata) :
  let m' := fold_left Envelope.scanLine lines m in
  (exists added, Envelope.To m' = Envelope.To m ++ added)
  /\ (exists added, Envelope.CC m' = Envelope.CC m ++ added)
  /\ (exists added, Envelope.BCC m' = Envelope.BCC m ++ added).
Proof.
  cbn zeta. fold (Envelope_extends m (fold_left Envelope.scanLine lines m)).
  revert m. induction lines as [|l lines IH]; intro m.
  - apply Envelope_extends_refl.
  - simpl. eapply Envelope_extends_trans; [apply Envelope_scanLine_extends|apply IH].
Qed.

Lemma Part000_scanLine_fields (m : Part000.Metadata) (line : string) :
  (headerKey line <> "Recipient" -> headerKey line <> "To" ->
   Part000.To (Part000.scanLine m line) = Part000.To m)
  /\ (headerKey line <> "Cc" ->
      Part000.CC (Part000.scanLine m line) = Part000.CC m)
  /\ (headerKey line <> "Bcc" ->
      Part000.BCC (Part000.scanLine m line) = Part000.BCC m).
Proof.
  unfold headerKey, Part000.scanLine.
  destruct (splitHeader line) as [[k v] ok]. cbn [fst].
  destruct ok; cbn [negb]; [|now repeat split].
  repeat match goal with
         | |- context [String.eqb k ?s] =>
             destruct (String.eqb_spec k s)
         end; repeat split; simpl; congruence.
Qed.

(** X11.  In src/unnamed/part_000 each recipient sequence is changed by
    the lines of its own key only: [To] by [Recipient] and [To] lines,
    [CC] by [Cc] lines, [BCC] by [Bcc] lines. *)
Theorem Part000_fields_separate (lines : list string) (m : Part000.Metadata) :
  let m' := fold_left Part000.scanLine lines m in
  (Forall (fun l => headerKey l <> "Recipient" /\ headerKey l <> "To") lines ->
   Part000.To m' = Part000.To m)
  /\ (Forall (fun l => headerKey l <> "Cc") lines -> Part000.CC m' = Part000.CC m)
  /\ (Forall (fun l => headerKey l <> "Bcc") lines -> Part000.BCC m' = Part000.BCC m).
Proof.
  cbn zeta. revert m. induction lines as [|l lines IH]; intro m; [now repeat split|].
  simpl. destruct (IH (Part000.scanLine m l)) as (T & C & B).
  destruct (Part000_scanLine_fields m l) as (T1 & C1 & B1).
  repeat split; intro F; inversion F as [|? ? Hl F']; subst.
  - rewrite (T F'). now apply T1.
  - rewrite (C F'). now apply C1.
  - rewrite (B F'). now apply B1.
Qed.

Lemma Envelope_scan_Timestamp (lines : list string) (m : Envelope.Metadata) :
  Envelope.Timestamp (fold_left Envelope.scanLine lines m) = Envelope.Timestamp m.
Proof.
  revert m. induction lines as [|l lines IH]; intro m; [reflexivity|].
  simpl. rewrite IH. unfold Envelope.scanLine.
  destruct (splitHeader l) as [[k v] ok].
  repeat match goal with
         | |- context [if ?c then _ else _] => destruct c
         end; reflexivity.
Qed.

End ScanInvariants.

Lemma Part000_fields_separate_witness :
  Part000.CC
    (fold_left Part000.scanLine
       ["To: a@x.com"; "Bcc: b@x.com, Forwarded: c@x.com"; "no header"]
       (@Part000.zeroMetadata Fixture.mail))
  = Part000.CC (@Part000.zeroMetadata Fixture.mail).
Proof.
  apply (proj1 (proj2 (@Part000_fields_separate Fixture.mail
                         ["To: a@x.com"; "Bcc: b@x.com, Forwarded: c@x.com";
                          "no header"]
                         Part000.zeroMetadata))).
  repeat constructor; discriminate.
Defined.

(** ** The lines the scanner yields *)

Section ScannedLines.
Import Notions.
Context `{Mail}.

Lemma noNewline_append (a b : string) :
  noNewline (a ++ b) = noNewline a && noNewline b.
Proof.
  induction a as [|c a IH]; simpl; [reflexivity|].
  now rewrite IH, andb_assoc.
Qed.

Lemma fits_shorter (a b : string) :
  bufio.fits (a ++ b) = true -> bufio.fits a = true.
Proof.
  unfold bufio.fits. rewrite length_append, !N.ltb_lt. lia.
Qed.

(** One line and its newline: a token, or the end of the scan. *)
Lemma scan_line (l : string) :
  forall cur rest,
    noNewline l = true ->
    bufio.scan cur (l ++ LF ++ rest) =
      if bufio.fits (cur ++ l)
      then bufio.dropCR (cur ++ l) :: bufio.scan EmptyString rest
      else [].
Proof.
  induction l as [|c l IH]; intros cur rest N.
  - simpl. now rewrite append_nil_r.
  - simpl in N. apply andb_prop in N. destruct N as [Nc Nl].
    cbn [append bufio.scan]. apply negb_true_iff in Nc. rewrite Nc.
    rewrite (IH _ rest Nl), append_assoc. reflexivity.
Qed.

(** A last line that no newline ends. *)
Lemma scan_last (l : string) :
  forall cur,
    noNewline l = true ->
    bufio.scan cur l =
      if String.eqb (cur ++ l) EmptyString then []
      else if bufio.fits (cur ++ l) then [bufio.dropCR (cur ++ l)] else [].
Proof.
  induction l as [|c l IH]; intros cur N.
  - simpl. now rewrite append_nil_r.
  - simpl in N. apply andb_prop in N. destruct N as [Nc Nl].
    cbn [bufio.scan]. apply negb_true_iff in Nc. rewrite Nc.
    rewrite (IH _ Nl), append_assoc. reflexivity.
Qed.

Lemma plainLine_LF (l : string) :
  plainLine l = true ->
  noNewline l = true /\ bufio.fits l = true /\ bufio.dropCR l = l.
Proof.
  unfold plainLine. intro P.
  apply andb_prop in P. destruct P as [P F].
  apply andb_prop in P. destruct P as [N S].
  repeat split; [exact N | now apply fits_shorter in F |].
  unfold bufio.dropCR, strings.TrimSuffix. fold CR.
  apply negb_true_iff in S. now rewrite S.
Qed.

Lemma plainLine_CRLF (l : string) :
  plainLine l = true ->
  noNewline (l ++ CR) = true /\ bufio.fits (l ++ CR) = true
  /\ bufio.dropCR (l ++ CR) = l.
Proof.
  unfold plainLine. intro P.
  apply andb_prop in P. destruct P as [P F].
  apply andb_prop in P. destruct P as [N S].
  repeat split; [rewrite noNewline_append, N; reflexivity | exact F |].
  apply TrimSuffix_append.
Qed.

Lemma scan_joinLF (lines : list string) (tail : string) :
  forallb plainLine lines = true ->
  bufio.scan EmptyString (joinLines LF lines ++ tail)
  = lines ++ bufio.scan EmptyString tail.
Proof.
  induction lines as [|l lines IH]; intro P; [reflexivity|].
  simpl in P. apply andb_prop in P. destruct P as [Pl P].
  destruct (plainLine_LF _ Pl) as (N & F & D).
  cbn [joinLines]. rewrite !append_assoc, (scan_line l _ _ N).
  cbn [append]. rewrite F, D, (IH P). reflexivity.
Qed.

Lemma scan_joinCRLF (lines : list string) (tail : string) :
  forallb plainLine lines = true ->
  bufio.scan EmptyString (joinLines CRLF lines ++ tail)
  = lines ++ bufio.scan EmptyString tail.
Proof.
  induction lines as [|l lines IH]; intro P; [reflexivity|].
  simpl in P. apply andb_prop in P. destruct P as [Pl P].
  destruct (plainLine_CRLF _ Pl) as (N & F & D).
  cbn [joinLines]. rewrite !append_assoc.
  change (CRLF ++ joinLines CRLF lines ++ tail)%string
    with (CR ++ LF ++ joinLines CRLF lines ++ tail)%string.
  rewrite <- append_assoc, (scan_line (l ++ CR) _ _ N).
  cbn [append]. rewrite F, D, (IH P). reflexivity.
Qed.

(** X12.  A body of plain lines is scanned line by line, in order, and it
    makes no difference whether the lines end in LF or in CR LF.  Both
    files. *)
Theorem ParseBody_line_ends (lines : list string) :
  forallb plainLine lines = true ->
  (Envelope.ParseBody (joinLines LF lines)
   = (fold_left Envelope.scanLine lines Envelope.zeroMetadata, None)
   /\ Envelope.ParseBody (joinLines CRLF lines)
      = Envelope.ParseBody (joinLines LF lines))
  /\ (Part000.ParseBody (joinLines LF lines)
      = (fold_left Part000.scanLine lines Part000.zeroMetadata, None)
      /\ Part000.ParseBody (joinLines CRLF lines)
         = Part000.ParseBody (joinLines LF lines)).
Proof.
  intro P.
  assert (L : bufio.Lines (joinLines LF lines) = lines).
  { unfold bufio.Lines. rewrite <- (append_nil_r (joinLines LF lines)).
    rewrite (scan_joinLF _ _ P). apply app_nil_r. }
  assert (C : bufio.Lines (joinLines CRLF lines) = lines).
  { unfold bufio.Lines. rewrite <- (append_nil_r (joinLines CRLF lines)).
    rewrite (scan_joinCRLF _ _ P). apply app_nil_r. }
  unfold Envelope.ParseBody, Part000.ParseBody. rewrite L, C. now repeat split.
Qed.

(** X13.  A line of 65536 bytes or more ends the scan: the lines before
    it are taken, that line and all that follows are dropped, and no
    error is returned.  Both files. *)
Theorem ParseBody_stops_at_long_line (before : list string) (long rest : string) :
  forallb plainLine before = true ->
  noNewline long = true ->
  bufio.fits long = false ->
  (Envelope.ParseBody (joinLines LF before ++ long ++ LF ++ rest)
   = (fold_left Envelope.scanLine before Envelope.zeroMetadata, None)
   /\ Envelope.ParseBody (joinLines LF before ++ long)
      = (fold_left Envelope.scanLine before Envelope.zeroMetadata, None))
  /\ (Part000.ParseBody (joinLines LF before ++ long ++ LF ++ rest)
      = (fold_left Part000.scanLine before Part000.zeroMetadata, None)
      /\ Part000.ParseBody (joinLines LF before ++ long)
         = (fold_left Part000.scanLine before Part000.zeroMetadata, None)).
Proof.
  intros P N F.
  assert (L1 : bufio.Lines (joinLines LF before ++ long ++ LF ++ rest) = before).
  { unfold bufio.Lines. rewrite (scan_joinLF _ _ P), (scan_line long _ _ N).
    cbn [append]. rewrite F. apply app_nil_r. }
  assert (L2 : bufio.Lines (joinLines LF before ++ long) = before).
  { unfold bufio.Lines. rewrite (scan_joinLF _ _ P), (scan_last long _ N).
    cbn [append]. rewrite F. destruct (String.eqb long ""); apply app_nil_r. }
  unfold Envelope.ParseBody, Part000.ParseBody. rewrite L1, L2. now repeat split.
Qed.

End ScannedLines.

Lemma ParseBody_line_ends_witness :
  @Envelope.ParseBody Fixture.mail
    (Notions.joinLines Notions.CRLF ["Sender: A@x.com"; "To: b@x.com"; ""])
  = @Envelope.ParseBody Fixture.mail
      (Notions.joinLines Notions.LF ["Sender: A@x.com"; "To: b@x.com"; ""]).
Proof.
  apply (proj2 (proj1 (@ParseBody_line_ends Fixture.mail
                         ["Sender: A@x.com"; "To: b@x.com"; ""] eq_refl))).
Defined.

Lemma ParseBody_stops_at_long_line_witness :
  @Envelope.ParseBody Fixture.mail
    (Notions.joinLines Notions.LF ["To: a@x.com"]
       ++ Notions.fill (N.to_nat 65536) "a" ++ Notions.LF ++ "Cc: c@x.com")
  = (fold_left Envelope.scanLine ["To: a@x.com"]
       (@Envelope.zeroMetadata Fixture.mail), None).
Proof.
  apply (proj1 (proj1 (@ParseBody_stops_at_long_line Fixture.mail
                         ["To: a@x.com"] (Notions.fill (N.to_nat 65536) "a")
                         "Cc: c@x.com" eq_refl
                         ltac:(vm_compute; reflexivity)
                         ltac:(vm_compute; reflexivity)))).
Defined.

(** ** More on the part extractor *)

Section PartExtractorMore.
Import Design.
Context `{Mail} `{Hash}.

Lemma rangeParts_without_wrappers
  (self : enmime.MIMEPart -> Envelope.chan -> Envelope.chan * Envelope.status)
  (parts : list enmime.MIMEPart) :
  forall ch,
    forallb (fun p => negb (isWrapper p)) parts = true ->
    Envelope.rangeParts self parts ch
    = (ch ++ filter (fun p => negb (isContainer p)) parts, Envelope.Completed).
Proof.
  induction parts as [|p parts IH]; intros ch W.
  - simpl. now rewrite app_nil_r.
  - simpl in W. apply andb_prop in W. destruct W as [Wp W].
    unfold isWrapper in Wp. apply negb_true_iff in Wp.
    cbn [Envelope.rangeParts filter]. rewrite Wp. unfold isContainer at 1.
    destruct (String.eqb (enmime.ContentType p) "multipart/mixed");
      cbn [negb]; rewrite (IH _ W); [reflexivity | now rewrite <- app_assoc].
Qed.

(** X14.  A tree without a part of type [message/rfc822] is traversed
    without a call to the mail reader or the decoder and without
    recursion: the parts sent are its nodes other than [multipart/mixed],
    depth first, and the traversal completes. *)
Theorem extractParts_without_wrappers
  (stack : nat) (part : enmime.MIMEPart) (ch : Envelope.chan) :
  forallb (fun p => negb (isWrapper p))
    (enmime.DepthMatchAll part (fun _ => true)) = true ->
  Envelope.extractParts (S stack) part ch
  = (ch ++ filter (fun p => negb (isContainer p))
             (enmime.DepthMatchAll part (fun _ => true)),
      Envelope.Completed).
Proof. intro W. cbn [Envelope.extractParts]. now apply rangeParts_without_wrappers. Qed.





End PartExtractorMore.

Lemma extractParts_without_wrappers_witness :
  @Envelope.extractParts Fixture.mail 1
    (Fixture.mixed [Fixture.leaf "text/plain" "a";
                    Fixture.mixed [Fixture.leaf "image/png" "b"]]) []
  = ([Fixture.leaf "text/plain" "a"; Fixture.leaf "image/png" "b"],
      Envelope.Completed).
Proof.
  apply (@extractParts_without_wrappers Fixture.mail 0
           (Fixture.mixed [Fixture.leaf "text/plain" "a";
                           Fixture.mixed [Fixture.leaf "image/png" "b"]]) []
           eq_refl).
Defined.


(** ** More on [Parse] of src/envelope.go *)

Section EnvelopeParse.
Import Design.
Context `{Mail} `{Hash}.

(** The five ways through [Parse]. *)
Lemma Envelope_Parse_cases (stack : nat) (input : string) :
  (exists e,
      ReadMessage input = inr e
      /\ Envelope.Parse stack input = Returns (None, Some e))
  \/ (exists env e,
        ReadMessage input = inl env /\ HeaderDate env = inr e
        /\ Envelope.Parse stack input = Returns (None, Some e))
  \/ (exists env received e,
        ReadMessage input = inl env /\ HeaderDate env = inl received
        /\ ParseMIMEBody env = inr e
        /\ Envelope.Parse stack input = Returns (None, Some e))
  \/ (exists env received b,
        ReadMessage input = inl env /\ HeaderDate env = inl received
        /\ ParseMIMEBody env = inl b
        /\ List.length (enmime.OtherParts b) <> 1
        /\ Envelope.Parse stack input
           = Returns (None,
                 Some (String.append
                         "Expected 1 MIME message in the envolope, but got "
                         (strconv.Itoa (len (enmime.OtherParts b))))))
  \/ (exists env received b wrapped ch st,
        ReadMessage input = inl env /\ HeaderDate env = inl received
        /\ ParseMIMEBody env = inl b
        /\ enmime.OtherParts b = [wrapped]
        /\ Envelope.extractParts stack wrapped [] = (ch, st)
        /\ Envelope.Parse stack input
           = match st with
             | Envelope.Completed =>
                 Returns
                   (Some (Envelope.mkMessage
                            (Envelope.setTimestamp
                               (fst (Envelope.ParseBody (enmime.Text b))) received)
                            (Sum256Hex (enmime.Content wrapped))
                            EmptyString
                            (map Envelope.collect ch)),
                     None)
             | Envelope.Exited => Exits
             | Envelope.StackExhausted => Overflows
             end).
Proof.
  unfold Envelope.Parse, Envelope.ParseBody.
  destruct (ReadMessage input) as [env|e] eqn:R; [|left; now exists e].
  right. destruct (HeaderDate env) as [received|e] eqn:D; [|left; now exists env, e].
  right. destruct (ParseMIMEBody env) as [b|e] eqn:P;
    [|left; now exists env, received, e].
  right. cbn [fst].
  destruct (enmime.OtherParts b) as [|wrapped [|second others]] eqn:O.
  - left. exists env, received, b. rewrite O. repeat split; try assumption; discriminate.
  - right. exists env, received, b, wrapped.
    cbn [len List.length Z.of_nat Z.eqb Pos.eqb negb nth_error Pos.of_succ_nat].
    destruct (Envelope.extractParts stack wrapped []) as [ch st] eqn:E.
    exists ch, st. rewrite O. repeat split; try assumption; now destruct st.
  - left. exists env, received, b. rewrite O. repeat split; try assumption; [discriminate|].
    replace (len (wrapped :: second :: others) =? 1)%Z with false; [reflexivity|].
    symmetry. apply Z.eqb_neq. unfold len. simpl List.length. lia.
Qed.

(** X16.  [Parse] of src/envelope.go never panics: the index of line 75
    is reached only with exactly one other part. *)
Theorem Envelope_Parse_never_panics (stack : nat) (input : string) :
  Envelope.Parse stack input <> Panics.
Proof.
  destruct (Envelope_Parse_cases stack input)
    as [(e & _ & ->)
       |[(env & e & _ & _ & ->)
        |[(env & t & e & _ & _ & _ & ->)
         |[(env & t & b & _ & _ & _ & _ & ->)
          |(env & t & b & w & ch & st & _ & _ & _ & _ & _ & ->)]]]];
    try discriminate.
  destruct st; discriminate.
Qed.

(** X17.  When [Parse] of src/envelope.go returns, it returns a [Message]
    or an error, never both and never neither. *)
Theorem Envelope_Parse_result_exclusive
  (stack : nat) (input : string) (m : option Envelope.Message) (err : option error) :
  Envelope.Parse stack input = Returns (m, err) ->
  (m = None /\ err <> None) \/ (m <> None /\ err = None).
Proof.
  destruct (Envelope_Parse_cases stack input)
    as [(e & _ & ->)
       |[(env & e & _ & _ & ->)
        |[(env & t & e & _ & _ & _ & ->)
         |[(env & t & b & _ & _ & _ & _ & ->)
          |(env & t & b & w & ch & st & _ & _ & _ & _ & _ & ->)]]]];
    try (intro E; injection E as <- <-; left; split; [reflexivity|discriminate]).
  destruct st; intro E; try discriminate.
  injection E as <- <-. right. split; [discriminate|reflexivity].
Qed.

(** X18.  An error that [Parse] of src/envelope.go returns is the error of
    the mail reader, of the [Date] header or of the decoder, as it was
    given, or the error that tells the number of other parts. *)
Theorem Envelope_Parse_errors
  (stack : nat) (input : string) (m : option Envelope.Message) (err : error) :
  Envelope.Parse stack input = Returns (m, Some err) ->
  m = None
  /\ (ReadMessage input = inr err
      \/ (exists env, ReadMessage input = inl env /\ HeaderDate env = inr err)
      \/ (exists env, ReadMessage input = inl env /\ ParseMIMEBody env = inr err)
      \/ (exists env b,
            ReadMessage input = inl env /\ ParseMIMEBody env = inl b
            /\ List.length (enmime.OtherParts b) <> 1
            /\ err = String.append
                       "Expected 1 MIME message in the envolope, but got "
                       (strconv.Itoa (len (enmime.OtherParts b))))).
Proof.
  destruct (Envelope_Parse_cases stack input)
    as [(e & R & ->)
       |[(env & e & R & D & ->)
        |[(env & t & e & R & D & P & ->)
         |[(env & t & b & R & D & P & N & ->)
          |(env & t & b & w & ch & st & _ & _ & _ & _ & _ & ->)]]]];
    try (intro E; injection E as <- <-; split; [reflexivity|]).
  - now left.
  - right; left. now exists env.
  - right; right; left. now exists env.
  - right; right; right. now exists env, b.
  - destruct st; intro E; discriminate.
Qed.




End EnvelopeParse.

Lemma Envelope_Parse_result_exclusive_witness :
  (@None (@Envelope.Message Fixture.mail) = None
   /\ Some "Expected 1 MIME message in the envolope, but got 0" <> @None error)
  \/ (@None (@Envelope.Message Fixture.mail) <> None
      /\ Some "Expected 1 MIME message in the envolope, but got 0" = @None error).
Proof.
  apply (@Envelope_Parse_result_exclusive Fixture.mail Fixture.hash
           5 "journal-none" None
           (Some "Expected 1 MIME message in the envolope, but got 0") eq_refl).
Defined.

Lemma Envelope_Parse_errors_witness :
  @None (@Envelope.Message Fixture.mail) = None
  /\ (@ReadMessage Fixture.mail "x" = inr "mail: header not in message"
      \/ (exists env,
            @ReadMessage Fixture.mail "x" = inl env
            /\ HeaderDate env = inr "mail: header not in message")
      \/ (exists env,
            @ReadMessage Fixture.mail "x" = inl env
            /\ ParseMIMEBody env = inr "mail: header not in message")
      \/ (exists env b,
            @ReadMessage Fixture.mail "x" = inl env
            /\ ParseMIMEBody env = inl b
            /\ List.length (enmime.OtherParts b) <> 1
            /\ "mail: header not in message"
               = String.append "Expected 1 MIME message in the envolope, but got "
                   (strconv.Itoa (len (enmime.OtherParts b))))).
Proof.
  apply (@Envelope_Parse_errors Fixture.mail Fixture.hash 5 "x" None
           "mail: header not in message").
  reflexivity.
Defined.




(** ** More on [Parse] of src/unnamed/part_000 *)

Section Part000Parse.
Context `{Mail} `{TikaLib}.

(** [Parse] once the envelope reads, is dated, decodes and has one other
    part. *)
Lemma Part000_Parse_wrapped
  (input : string) (env : mailMessage) (received : Time)
  (b : enmime.MIMEBody) (wrapped : enmime.MIMEPart) :
  ReadMessage input = inl env ->
  HeaderDate env = inl received ->
  ParseMIMEBody env = inl b ->
  enmime.OtherParts b = [wrapped] ->
  Part000.Parse input =
    match ReadMessage (enmime.Content wrapped) with
    | inr _ => Exits
    | inl m2 =>
        match ParseMIMEBody m2 with
        | inr e => Returns (None, Some e)
        | inl b2 =>
            match NewTika "http://localhost:9998/tika" with
            | inr e => Returns (None, Some e)
            | inl t =>
                match enmime.Attachments b2 with
                | [] => Panics
                | attachment :: _ =>
                    match TikaParse t (enmime.Content attachment)
                            (enmime.ContentType attachment) with
                    | inr e => Returns (None, Some e)
                    | inl data =>
                        Returns
                          (Some (Part000.mkMessage
                                   (Part000.setJournalTimestamp
                                      (fst (Part000.ParseBody (enmime.Text b)))
                                      received)
                                   data),
                            None)
                    end
                end
            end
        end
    end.
Proof.
  intros R D P O. unfold Part000.Parse, Part000.ParseBody.
  rewrite R, D, P, O.
  cbn [len List.length Z.of_nat Z.eqb Pos.eqb negb nth_error Pos.of_succ_nat fst].
  destruct (ReadMessage (enmime.Content wrapped)) as [m2|e]; [|reflexivity].
  destruct (ParseMIMEBody m2) as [b2|e]; [|reflexivity].
  destruct (NewTika "http://localhost:9998/tika") as [t|e]; [|reflexivity].
  now destruct (enmime.Attachments b2).
Qed.

Lemma Part000_Parse_cases (input : string) :
  (exists e, Part000.Parse input = Returns (None, Some e))
  \/ (exists env received b wrapped,
        ReadMessage input = inl env /\ HeaderDate env = inl received
        /\ ParseMIMEBody env = inl b /\ enmime.OtherParts b = [wrapped]).
Proof.
  unfold Part000.Parse, Part000.ParseBody.
  destruct (ReadMessage input) as [env|e] eqn:R; [|left; now exists e].
  destruct (HeaderDate env) as [received|e] eqn:D; [|left; now exists e].
  destruct (ParseMIMEBody env) as [b|e] eqn:P; [|left; now exists e].
  destruct (enmime.OtherParts b) as [|wrapped [|second others]] eqn:O.
  - left. now eexists.
  - right. now exists env, received, b, wrapped.
  - left. replace (len (wrapped :: second :: others) =? 1)%Z with false;
      [now eexists|].
    symmetry. apply Z.eqb_neq. unfold len. simpl List.length. lia.
Qed.

(** X22.  [Parse] of src/unnamed/part_000 panics in one case and no
    other: the envelope and the message it wraps read and decode, the
    Tika client is made, and the wrapped message has no attachment. *)
Theorem Part000_Parse_panics_iff (input : string) :
  Part000.Parse input = Panics
  <-> exists env received b wrapped m2 b2 t,
      ReadMessage input = inl env
      /\ HeaderDate env = inl received
      /\ ParseMIMEBody env = inl b
      /\ enmime.OtherParts b = [wrapped]
      /\ ReadMessage (enmime.Content wrapped) = inl m2
      /\ ParseMIMEBody m2 = inl b2
      /\ NewTika "http://localhost:9998/tika" = inl t
      /\ enmime.Attachments b2 = [].
Proof.
  split.
  - destruct (Part000_Parse_cases input)
      as [[e ->]|(env & received & b & wrapped & R & D & P & O)];
      [discriminate|].
    rewrite (Part000_Parse_wrapped _ _ _ _ _ R D P O).
    destruct (ReadMessage (enmime.Content wrapped)) as [m2|e] eqn:R2; [|discriminate].
    destruct (ParseMIMEBody m2) as [b2|e] eqn:P2; [|discriminate].
    destruct (NewTika "http://localhost:9998/tika") as [t|e] eqn:T; [|discriminate].
    destruct (enmime.Attachments b2) as [|a rest] eqn:A.
    + intros _. now exists env, received, b, wrapped, m2, b2, t.
    + destruct (TikaParse t (enmime.Content a) (enmime.ContentType a));
        discriminate.
  - intros (env & received & b & wrapped & m2 & b2 & t
            & R & D & P & O & R2 & P2 & T & A).
    rewrite (Part000_Parse_wrapped _ _ _ _ _ R D P O). now rewrite R2, P2, T, A.
Qed.

(** X23.  [Parse] of src/unnamed/part_000 ends the process in one case
    and no other: the envelope reads, is dated, decodes and has one other
    part, and the content of that part does not read as a message. *)
Theorem Part000_Parse_exits_iff (input : string) :
  Part000.Parse input = Exits
  <-> exists env received b wrapped e,
      ReadMessage input = inl env
      /\ HeaderDate env = inl received
      /\ ParseMIMEBody env = inl b
      /\ enmime.OtherParts b = [wrapped]
      /\ ReadMessage (enmime.Content wrapped) = inr e.
Proof.
  split.
  - destruct (Part000_Parse_cases input)
      as [[e ->]|(env & received & b & wrapped & R & D & P & O)];
      [discriminate|].
    rewrite (Part000_Parse_wrapped _ _ _ _ _ R D P O).
    destruct (ReadMessage (enmime.Content wrapped)) as [m2|e] eqn:R2.
    + destruct (ParseMIMEBody m2) as [b2|?]; [|discriminate].
      destruct (NewTika "http://localhost:9998/tika") as [t|?]; [|discriminate].
      destruct (enmime.Attachments b2) as [|a rest]; [discriminate|].
      destruct (TikaParse t (enmime.Content a) (enmime.ContentType a));
        discriminate.
    + intros _. now exists env, received, b, wrapped, e.
  - intros (env & received & b & wrapped & e & R & D & P & O & R2).
    rewrite (Part000_Parse_wrapped _ _ _ _ _ R D P O). now rewrite R2.
Qed.

(** X24.  A [Message] that [Parse] of src/unnamed/part_000 returns comes
    with no error; its [BodyText] is what Tika made of the first
    attachment of the wrapped message, its [JournalTimestamp] the [Date]
    of the envelope, its other metadata those of the text of the
    envelope. *)
Theorem Part000_Parse_message
  (input : string) (msg : Part000.Message) (err : option error) :
  Part000.Parse input = Returns (Some msg, err) ->
  err = None
  /\ exists env received b wrapped m2 b2 t attachment others,
      ReadMessage input = inl env
      /\ HeaderDate env = inl received
      /\ ParseMIMEBody env = inl b
      /\ enmime.OtherParts b = [wrapped]
      /\ ReadMessage (enmime.Content wrapped) = inl m2
      /\ ParseMIMEBody m2 = inl b2
      /\ NewTika "http://localhost:9998/tika" = inl t
      /\ enmime.Attachments b2 = attachment :: others
      /\ TikaParse t (enmime.Content attachment) (enmime.ContentType attachment)
         = inl (Part000.BodyText msg)
      /\ Part000.Meta msg
         = Part000.setJournalTimestamp
             (fst (Part000.ParseBody (enmime.Text b))) received.
Proof.
  destruct (Part000_Parse_cases input)
    as [[e ->]|(env & received & b & wrapped & R & D & P & O)];
    [discriminate|].
  rewrite (Part000_Parse_wrapped _ _ _ _ _ R D P O).
  destruct (ReadMessage (enmime.Content wrapped)) as [m2|e] eqn:R2; [|discriminate].
  destruct (ParseMIMEBody m2) as [b2|?] eqn:P2; [|discriminate].
  destruct (NewTika "http://localhost:9998/tika") as [t|?] eqn:T; [|discriminate].
  destruct (enmime.Attachments b2) as [|a rest] eqn:A; [discriminate|].
  destruct (TikaParse t (enmime.Content a) (enmime.ContentType a))
    as [data|?] eqn:K; [|discriminate].
  intro Q. injection Q as <- <-. split; [reflexivity|].
  exists env, received, b, wrapped, m2, b2, t, a, rest. now repeat split.
Qed.

(** X25.  When [Parse] of src/unnamed/part_000 returns, it returns a
    [Message] or an error, never both and never neither. *)
Theorem Part000_Parse_result_exclusive
  (input : string) (m : option Part000.Message) (err : option error) :
  Part000.Parse input = Returns (m, err) ->
  (m = None /\ err <> None) \/ (m <> None /\ err = None).
Proof.
  destruct (Part000_Parse_cases input)
    as [[e ->]|(env & received & b & wrapped & R & D & P & O)].
  - intro Q. injection Q as <- <-. left. split; [reflexivity | discriminate].
  - rewrite (Part000_Parse_wrapped _ _ _ _ _ R D P O).
    destruct (ReadMessage (enmime.Content wrapped)) as [m2|e]; [|discriminate].
    destruct (ParseMIMEBody m2) as [b2|?];
      [|intro Q; injection Q as <- <-; left; split; [reflexivity | discriminate]].
    destruct (NewTika "http://localhost:9998/tika") as [t|?];
      [|intro Q; injection Q as <- <-; left; split; [reflexivity | discriminate]].
    destruct (enmime.Attachments b2) as [|a rest]; [discriminate|].
    destruct (TikaParse t (enmime.Content a) (enmime.ContentType a));
      intro Q; injection Q as <- <-;
      [right | left]; split; (reflexivity || discriminate).
Qed.

End Part000Parse.

Lemma Part000_Parse_message_witness :
  exists msg,
    @Part000.Parse RtfFixture.mail Fixture.tika "journal" = Returns (Some msg, None)
    /\ Part000.BodyText msg = enmime.Content RtfFixture.memo
    /\ Part000.JournalTimestamp (Part000.Meta msg) = 7.
Proof.
  eexists. split; [reflexivity|].
  destruct (@Part000_Parse_message RtfFixture.mail Fixture.tika "journal"
              _ None eq_refl)
    as (_ & env & received & b & wrapped & m2 & b2 & t & a & others
        & R & D & P & O & R2 & P2 & T & A & K & M).
  split; reflexivity.
Defined.

Lemma Part000_Parse_result_exclusive_witness :
  (@None (@Part000.Message Fixture.mail) = None
   /\ Some "Expected 1 MIME message in the envolope, but got 2" <> @None error)
  \/ (@None (@Part000.Message Fixture.mail) <> None
      /\ Some "Expected 1 MIME message in the envolope, but got 2" = @None error).
Proof.
  apply (@Part000_Parse_result_exclusive Fixture.mail Fixture.tika
           "journal-two" None
           (Some "Expected 1 MIME message in the envolope, but got 2") eq_refl).
Defined.
